(** * The Slack bot of keel: event classification and dispatch

    A shallow embedding of [bot/slack/slack.go].  Go strings are byte
    sequences; they are modelled by [string], whose characters are the
    bytes.  The functions of Go's [strings] package that the bot calls are
    written out in [Module strings]; the bot itself follows in
    [Module slack].

    What the bot does to the outside is kept in a [World]: a send on one of
    its two Go channels is an item added to that channel's queue (the send
    is taken to complete), a reply is an item added to the messages sent
    through the RTM connection or to the uploads.  The answers of the Slack
    service come with the bot, as the functions of its client. *)

From Stdlib Require Import Strings.String Strings.Ascii Lists.List Bool Arith Lia.
Import ListNotations.
Open Scope string_scope.

(** ** Go's [strings] package, as far as the bot uses it *)

(** Go's [len] on a string: its number of bytes. *)
Abbreviation len := String.length.

Module strings.

(** ['A' <= c && c <= 'Z'] *)
Definition isUpperByte (c : ascii) : bool :=
  Nat.leb 65 (nat_of_ascii c) && Nat.leb (nat_of_ascii c) 90.

(** [c < utf8.RuneSelf] *)
Definition isASCIIByte (c : ascii) : bool := Nat.ltb (nat_of_ascii c) 128.

(** [c += 'a' - 'A'] on an upper-case byte. *)
Definition lowerByte (c : ascii) : ascii :=
  if isUpperByte c then ascii_of_nat (nat_of_ascii c + 32) else c.

Fixpoint mapBytes (f : ascii -> ascii) (s : string) : string :=
  match s with
  | "" => ""
  | String c s' => String (f c) (mapBytes f s')
  end.

Fixpoint allBytes (p : ascii -> bool) (s : string) : bool :=
  match s with
  | "" => true
  | String c s' => p c && allBytes p s'
  end.

Fixpoint existsByte (p : ascii -> bool) (s : string) : bool :=
  match s with
  | "" => false
  | String c s' => p c || existsByte p s'
  end.

Section ToLower.
(** [strings.Map(unicode.ToLower, s)]: the path Go takes for a text with a
    byte of 0x80 or more.  It reads the Unicode case tables of the Go
    standard library, which stay a parameter here. *)
Variable unicodeLower : string -> string.

(** [strings.ToLower]: ASCII-only texts are lower-cased byte by byte (and
    returned as they are when they hold no upper-case byte). *)
Definition ToLower (s : string) : string :=
  if allBytes isASCIIByte s then
    if existsByte isUpperByte s then mapBytes lowerByte s else s
  else unicodeLower s.
End ToLower.

(** [len(s) >= len(prefix) && s[:len(prefix)] == prefix] *)
Fixpoint HasPrefix (s prefix : string) {struct prefix} : bool :=
  match prefix, s with
  | "", _ => true
  | String _ _, "" => false
  | String b prefix', String a s' =>
      if Ascii.eqb a b then HasPrefix s' prefix' else false
  end.

(** The slices [s[n:]] and [s[:n]]. *)
Fixpoint sliceFrom (n : nat) (s : string) : string :=
  match n, s with
  | 0, _ => s
  | S _, "" => ""
  | S n', String _ s' => sliceFrom n' s'
  end.

Fixpoint sliceTo (n : nat) (s : string) : string :=
  match n, s with
  | 0, _ => ""
  | S _, "" => ""
  | S n', String c s' => String c (sliceTo n' s')
  end.

(** [strings.TrimPrefix] *)
Definition TrimPrefix (s prefix : string) : string :=
  if HasPrefix s prefix then sliceFrom (len prefix) s else s.

(** [strings.Index]: the byte index of the first instance of [substr] in
    [s]; [None] stands for Go's -1. *)
Fixpoint Index (s substr : string) : option nat :=
  if HasPrefix s substr then Some 0
  else match s with
       | "" => None
       | String _ s' => option_map S (Index s' substr)
       end.

(** [strings.Replace(s, old, new, n)] for [n >= 0]: the first [n]
    non-overlapping instances of [old] are replaced by [new].  Go returns
    [s] when [old == new] or [n == 0].  (With an empty [old] and a non-empty
    [new] Go inserts [new] at rune boundaries; the bot only ever passes the
    empty [new], so that case is left out.) *)
Fixpoint Replace (s old new : string) (n : nat) : string :=
  if String.eqb old new then s
  else match n with
       | 0 => s
       | S n' =>
           match Index s old with
           | None => s
           | Some j =>
               sliceTo j s ++ new
                 ++ Replace (sliceFrom (j + len old) s) old new n'
           end
       end.

Fixpoint inCutset (c : ascii) (cutset : string) : bool :=
  match cutset with
  | "" => false
  | String d cutset' => Ascii.eqb c d || inCutset c cutset'
  end.

(** [strings.TrimLeft], [strings.TrimRight] and [strings.Trim] for a cutset
    of ASCII characters, where Go trims byte by byte. *)
Fixpoint TrimLeft (s cutset : string) : string :=
  match s with
  | "" => ""
  | String c s' => if inCutset c cutset then TrimLeft s' cutset else s
  end.

Fixpoint TrimRight (s cutset : string) : string :=
  match s with
  | "" => ""
  | String c s' =>
      match TrimRight s' cutset with
      | "" => if inCutset c cutset then "" else String c ""
      | String _ _ as t => String c t
      end
  end.

Definition Trim (s cutset : string) : string :=
  TrimLeft (TrimRight s cutset) cutset.

End strings.

(** Line feed, carriage return and the double quote, which the Go source
    writes with a backslash escape. *)
Definition LF : string := String (ascii_of_nat 10) "".
Definition CR : string := String (ascii_of_nat 13) "".
Definition DQUOTE : string := String (ascii_of_nat 34) "".

(** ** The bot *)

Module slack.

(** A Go [error], by its message. *)
Definition error := string.

(** A Go result pair [(value, err)]: [Err] when [err != nil]. *)
Inductive result (A : Type) : Type :=
| Ok (a : A)
| Err (err : error).
Arguments Ok {A} a.
Arguments Err {A} err.

(** The fields of the Slack library's structs that the bot reads or
    fills. *)
Module User.
Record t := { ID : string; Name : string; IsBot : bool }.
End User.

Module Channel.
Record t := { Name : string }.
End Channel.

Module MessageEvent.
Record t := {
  Text : string;
  User : string;
  Channel : string;
  BotID : string;
  SubType : string }.
End MessageEvent.

Module OutgoingMessage.
Record t := { Channel : string; Text : string }.
End OutgoingMessage.

Module FileUploadParameters.
Record t := {
  Filename : string;
  Content : string;
  Filetype : string;
  Channels : list string }.
End FileUploadParameters.

(** [bot.BotMessage], with the fields [handleMessage] fills. *)
Module BotMessage.
Record t := {
  Message : string;
  User : string;
  Channel : string;
  Name : string }.
End BotMessage.

(** The lookups of [*slack.Client] and [*slack.RTM].  They go to the Slack
    service; what they answer is given with the bot. *)
Module Client.
Record t := {
  GetUsers : result (list User.t);
  GetChannelInfo : string -> result Channel.t;
  UploadFile : FileUploadParameters.t -> option error }.
End Client.

Module RTM.
Record t := { GetConversationInfo : string -> bool -> result Channel.t }.
End RTM.

(** [type Bot struct].  The two Go channels are handles; what has been sent
    on them is kept in the [World] below.  The context is left out. *)
Record Bot := {
  id : string;
  name : string;
  users : list (string * string);
  msgPrefix : string;
  slackClient : Client.t;
  slackRTM : RTM.t;
  approvalsChannel : string }.

Definition set_id (b : Bot) (v : string) : Bot :=
  {| id := v; name := name b; users := users b; msgPrefix := msgPrefix b;
     slackClient := slackClient b; slackRTM := slackRTM b;
     approvalsChannel := approvalsChannel b |}.

Definition set_users (b : Bot) (v : list (string * string)) : Bot :=
  {| id := id b; name := name b; users := v; msgPrefix := msgPrefix b;
     slackClient := slackClient b; slackRTM := slackRTM b;
     approvalsChannel := approvalsChannel b |}.

Definition set_msgPrefix (b : Bot) (v : string) : Bot :=
  {| id := id b; name := name b; users := users b; msgPrefix := v;
     slackClient := slackClient b; slackRTM := slackRTM b;
     approvalsChannel := approvalsChannel b |}.

Inductive Level := DebugLevel | WarnLevel | ErrorLevel.

(** A line of the log: its level and its message (the structured fields
    are left out). *)
Record Entry := { level : Level; message : string }.

Inductive Goroutine := startInternal.

Section Bot.
(** See [strings.ToLower]. *)
Variable unicodeLower : string -> string.

(** [bot.ApprovalResponse] and the vote parser [bot.IsApproval] live in
    another package; the bot hands the parser's answer on untouched. *)
Variable ApprovalResponse : Type.
Variable IsApproval : string -> string -> ApprovalResponse * bool.

(** Everything the bot does to the outside: what it has sent on its two
    Go channels, through the RTM connection and as file uploads, what it
    has logged and the goroutines it has launched; the latest first. *)
Record World := {
  approvalsRespCh : list ApprovalResponse;
  botMessagesChannel : list BotMessage.t;
  rtmSent : list OutgoingMessage.t;
  uploaded : list FileUploadParameters.t;
  logged : list Entry;
  goroutines : list Goroutine }.

(** Statements run in a state monad over the world. *)
Definition M (A : Type) : Type := World -> A * World.

Definition ret {A : Type} (a : A) : M A := fun w => (a, w).

Definition bind {A B : Type} (m : M A) (k : A -> M B) : M B :=
  fun w => let (a, w') := m w in k a w'.

Notation "x <- m ;; k" := (bind m (fun x => k))
  (at level 61, m at next level, right associativity).
Notation "m ;; k" := (bind m (fun _ => k))
  (at level 61, right associativity).

(** [b.approvalsRespCh <- approval] *)
Definition sendApproval (approval : ApprovalResponse) : M unit := fun w =>
  (tt, {| approvalsRespCh := approval :: approvalsRespCh w;
          botMessagesChannel := botMessagesChannel w;
          rtmSent := rtmSent w; uploaded := uploaded w;
          logged := logged w; goroutines := goroutines w |}).

(** [b.botMessagesChannel <- msg] *)
Definition sendBotMessage (msg : BotMessage.t) : M unit := fun w =>
  (tt, {| approvalsRespCh := approvalsRespCh w;
          botMessagesChannel := msg :: botMessagesChannel w;
          rtmSent := rtmSent w; uploaded := uploaded w;
          logged := logged w; goroutines := goroutines w |}).

(** [b.slackRTM.SendMessage(msg)] *)
Definition SendMessage (msg : OutgoingMessage.t) : M unit := fun w =>
  (tt, {| approvalsRespCh := approvalsRespCh w;
          botMessagesChannel := botMessagesChannel w;
          rtmSent := msg :: rtmSent w; uploaded := uploaded w;
          logged := logged w; goroutines := goroutines w |}).

(** [b.slackClient.UploadFile(f)], with the error it answers. *)
Definition UploadFile (b : Bot) (f : FileUploadParameters.t)
  : M (option error) := fun w =>
  (Client.UploadFile (slackClient b) f,
   {| approvalsRespCh := approvalsRespCh w;
      botMessagesChannel := botMessagesChannel w;
      rtmSent := rtmSent w; uploaded := f :: uploaded w;
      logged := logged w; goroutines := goroutines w |}).

Definition log (l : Level) (msg : string) : M unit := fun w =>
  (tt, {| approvalsRespCh := approvalsRespCh w;
          botMessagesChannel := botMessagesChannel w;
          rtmSent := rtmSent w; uploaded := uploaded w;
          logged := {| level := l; message := msg |} :: logged w;
          goroutines := goroutines w |}).

(** [go f()] *)
Definition go (g : Goroutine) : M unit := fun w =>
  (tt, {| approvalsRespCh := approvalsRespCh w;
          botMessagesChannel := botMessagesChannel w;
          rtmSent := rtmSent w; uploaded := uploaded w;
          logged := logged w; goroutines := g :: goroutines w |}).

(** The loop of [Start] over the users: no [break], so every user named
    as the bot and flagged as a bot assigns [b.id] in turn. *)
Definition scanUsers (b : Bot) (users : list User.t) : Bot :=
  fold_left
    (fun b user =>
       if String.eqb (User.Name user) (name b) then
         if User.IsBot user then set_id b (User.ID user) else b
       else b)
    users b.

Definition Start (b : Bot) : M (Bot * option error) :=
  match Client.GetUsers (slackClient b) with
  | Err err => ret (b, Some err)
  | Ok users =>
      let b := set_users b [] in
      let b := scanUsers b users in
      if String.eqb (id b) "" then
        ret (b, Some ("could not find bot in the list of names, check if the bot is called "
                        ++ DQUOTE ++ name b ++ DQUOTE ++ " "))
      else
        let b := set_msgPrefix b (strings.ToLower unicodeLower ("<@" ++ id b ++ ">")) in
        go startInternal ;;
        ret (b, None)
  end.

Definition isApprovalsChannel (b : Bot) (event : MessageEvent.t) : M bool :=
  match Client.GetChannelInfo (slackClient b) (MessageEvent.Channel event) with
  | Err _ =>
      match RTM.GetConversationInfo (slackRTM b) (MessageEvent.Channel event) true with
      | Err err =>
          log ErrorLevel ("couldn't find amongst private conversations: " ++ err) ;;
          log ErrorLevel ("channel with ID " ++ MessageEvent.Channel event
                            ++ " could not be retrieved") ;;
          ret false
      | Ok conv =>
          if String.eqb (Channel.Name conv) (approvalsChannel b) then ret true
          else
            log ErrorLevel ("channel with ID " ++ MessageEvent.Channel event
                              ++ " could not be retrieved") ;;
            ret false
      end
  | Ok channel =>
      log DebugLevel ("checking if approvals channel: " ++ Channel.Name channel
                        ++ "==" ++ approvalsChannel b) ;;
      if String.eqb (Channel.Name channel) (approvalsChannel b) then ret true
      else
        log DebugLevel ("message was received not on approvals channel ("
                          ++ Channel.Name channel ++ ")") ;;
        ret false
  end.

Definition formatAsSnippet (response : string) : string :=
  "```" ++ response ++ "```".

Definition Respond (b : Bot) (text channel : string) : M unit :=
  if Nat.ltb (len text) 3000 then
    SendMessage {| OutgoingMessage.Channel := channel;
                   OutgoingMessage.Text := formatAsSnippet text |}
  else
    err <- UploadFile b {| FileUploadParameters.Filename := "keel response";
                           FileUploadParameters.Content := text;
                           FileUploadParameters.Filetype := "text";
                           FileUploadParameters.Channels := [channel] |} ;;
    match err with
    | Some _ => log ErrorLevel "Respond: failed to send message"
    | None => ret tt
    end.

Definition isBotMessage (b : Bot) (event : MessageEvent.t) (eventText : string)
  : bool :=
  let prefixes := [msgPrefix b; name b] in
  if existsb (fun p => strings.HasPrefix eventText p) prefixes then true
  else strings.HasPrefix (MessageEvent.Channel event) "D".

Definition trimBot (b : Bot) (msg : string) : string :=
  let msg := strings.Replace msg (strings.ToLower unicodeLower (msgPrefix b)) "" 1 in
  let msg := strings.TrimPrefix msg (name b) in
  let msg := strings.Trim msg (" :" ++ LF) in
  msg.

Definition handleMessage (b : Bot) (event : MessageEvent.t) : M unit :=
  if negb (String.eqb (MessageEvent.BotID event) "")
     || String.eqb (MessageEvent.User event) ""
     || String.eqb (MessageEvent.SubType event) "bot_message"
  then log DebugLevel "handleMessage: ignoring message"
  else
    let eventText :=
      strings.Trim (strings.ToLower unicodeLower (MessageEvent.Text event))
        (" " ++ LF ++ CR) in
    if negb (isBotMessage b event eventText) then ret tt
    else
      let eventText := trimBot b eventText in
      let (approval, ok) := IsApproval (MessageEvent.User event) eventText in
      if ok then
        inApprovals <- isApprovalsChannel b event ;;
        if inApprovals then sendApproval approval
        else
          log WarnLevel ("message was received not in approvals channel: "
                           ++ MessageEvent.Channel event) ;;
          Respond b ("please use approvals channel '" ++ approvalsChannel b ++ "'")
            (MessageEvent.Channel event)
      else
        sendBotMessage {| BotMessage.Message := eventText;
                          BotMessage.User := MessageEvent.User event;
                          BotMessage.Channel := MessageEvent.Channel event;
                          BotMessage.Name := "slack" |}.

End Bot.

Arguments approvalsRespCh {ApprovalResponse} w.
Arguments botMessagesChannel {ApprovalResponse} w.
Arguments rtmSent {ApprovalResponse} w.
Arguments uploaded {ApprovalResponse} w.
Arguments logged {ApprovalResponse} w.
Arguments goroutines {ApprovalResponse} w.
Arguments Build_World {ApprovalResponse}.
Arguments Start unicodeLower {ApprovalResponse} b w.
Arguments isApprovalsChannel {ApprovalResponse} b event w.
Arguments Respond {ApprovalResponse} b text channel w.
Arguments handleMessage unicodeLower {ApprovalResponse} IsApproval b event w.

End slack.

(** ** Notions in which the properties are stated *)

Module props.
Import strings.

(** [occursAt j s p]: an instance of [p] starts at byte [j] of [s]. *)
Definition occursAt (j : nat) (s p : string) : Prop :=
  exists l r, s = l ++ p ++ r /\ len l = j.

Definition Contains (s p : string) : Prop := exists j, occursAt j s p.

(** [firstRemoved p s mid]: [mid] is [s] without its leftmost instance of
    [p], or [s] itself when [p] does not occur in it. *)
Definition firstRemoved (p s mid : string) : Prop :=
  (~ Contains s p /\ mid = s)
  \/ (exists l r, s = l ++ p ++ r
                 /\ (forall i, occursAt i s p -> len l <= i)
                 /\ mid = l ++ r).

(** [prefixRemoved p s rest]: [rest] is [s] without [p] at its start, or
    [s] itself when it does not start with [p]. *)
Definition prefixRemoved (p s rest : string) : Prop :=
  s = p ++ rest \/ (HasPrefix s p = false /\ rest = s).

Fixpoint lastByte (s : string) : option ascii :=
  match s with
  | "" => None
  | String c "" => Some c
  | String _ s' => lastByte s'
  end.

Definition firstByte (s : string) : option ascii :=
  match s with
  | "" => None
  | String c _ => Some c
  end.

Definition outside (cutset : string) (o : option ascii) : Prop :=
  match o with
  | None => True
  | Some c => inCutset c cutset = false
  end.

(** [trimmed cutset s t]: [t] is [s] without the bytes of [cutset] at its
    two ends. *)
Definition trimmed (cutset s t : string) : Prop :=
  exists l r, s = l ++ t ++ r
              /\ allBytes (fun c => inCutset c cutset) l = true
              /\ allBytes (fun c => inCutset c cutset) r = true
              /\ outside cutset (firstByte t)
              /\ outside cutset (lastByte t).

(** Every way to write [s] as [l ++ p ++ r]. *)
Fixpoint splitsAt (p s : string) : list (string * string) :=
  ((if HasPrefix s p then [("", sliceFrom (len p) s)] else [])
   ++ match s with
      | "" => []
      | String c s' => map (fun lr => (String c (fst lr), snd lr)) (splitsAt p s')
      end)%list.

Section Readings.
Variable unicodeLower : string -> string.

(** The text of an event as [handleMessage] normalizes it. *)
Definition normalized (event : slack.MessageEvent.t) : string :=
  Trim (ToLower unicodeLower (slack.MessageEvent.Text event)) (" " ++ LF ++ CR).

(** The mention prefix that [trimBot] looks for. *)
Definition mention (b : slack.Bot) : string :=
  ToLower unicodeLower (slack.msgPrefix b).

(** Stripping as the specification words it for a text with two
    mentions: some instance of the mention prefix is taken out and the
    rest is only trimmed. *)
Definition oneMentionRemoved (b : slack.Bot) (msg : string) : Prop :=
  exists l r, msg = l ++ mention b ++ r
              /\ slack.trimBot unicodeLower b msg = Trim (l ++ r) (" :" ++ LF).

(** The strip-addressing step as the specification words it: the mention
    prefix is taken from the start of the text if the text starts with
    it, else the plain name is taken from the start if the text starts
    with it; then spaces, colons and line feeds are trimmed. *)
Definition stripAtStart (b : slack.Bot) (msg : string) : string :=
  let p := mention b in
  Trim (if HasPrefix msg p then sliceFrom (len p) msg
        else if HasPrefix msg (slack.name b) then sliceFrom (len (slack.name b)) msg
        else msg)
       (" :" ++ LF).
End Readings.

(** A user that the loop of [Start] takes for the bot. *)
Definition isTheBot (b : slack.Bot) (u : slack.User.t) : Prop :=
  slack.User.Name u = slack.name b /\ slack.User.IsBot u = true.

(** The first user of the directory named as the bot and flagged as a bot:
    the one the specification has identity resolution pick. *)
Definition firstBot (b : slack.Bot) (users : list slack.User.t)
  : option slack.User.t :=
  find (fun u => String.eqb (slack.User.Name u) (slack.name b) && slack.User.IsBot u)
       users.

(** The noise filter lets the event through. *)
Definition notNoise (event : slack.MessageEvent.t) : Prop :=
  slack.MessageEvent.BotID event = ""
  /\ slack.MessageEvent.User event <> ""
  /\ slack.MessageEvent.SubType event <> "bot_message".

Section Outputs.
Context {ApprovalResponse : Type}.
Implicit Types w : slack.World ApprovalResponse.

(** Nothing was sent through the RTM connection or uploaded between [w]
    and [w']. *)
Definition noReply w w' : Prop :=
  slack.rtmSent w' = slack.rtmSent w /\ slack.uploaded w' = slack.uploaded w.

(** Nothing was sent on either Go channel between [w] and [w']. *)
Definition noneQueued w w' : Prop :=
  slack.approvalsRespCh w' = slack.approvalsRespCh w
  /\ slack.botMessagesChannel w' = slack.botMessagesChannel w.

(** Exactly one reply with [text] went to [channel] between [w] and [w']:
    either one RTM message holding the text as a snippet, or one upload
    of the text. *)
Definition oneReply (text channel : string) w w' : Prop :=
  (slack.rtmSent w'
     = {| slack.OutgoingMessage.Channel := channel;
          slack.OutgoingMessage.Text := "```" ++ text ++ "```" |}
         :: slack.rtmSent w
   /\ slack.uploaded w' = slack.uploaded w)
  \/ (slack.rtmSent w' = slack.rtmSent w
      /\ slack.uploaded w'
         = {| slack.FileUploadParameters.Filename := "keel response";
              slack.FileUploadParameters.Content := text;
              slack.FileUploadParameters.Filetype := "text";
              slack.FileUploadParameters.Channels := [channel] |}
             :: slack.uploaded w).
End Outputs.

End props.

(** ** A workspace to run the bot on *)

Module example.
Import slack.

(** Stands for the Unicode path of [strings.ToLower] (never taken on the
    ASCII texts below). *)
Definition lowerBytes : string -> string := strings.mapBytes strings.lowerByte.

(** A toy vote parser: a text starting with "approve" or "reject" is a
    vote, kept as the pair of voter and text. *)
Definition Vote : Type := string * string.

Definition IsApproval (user text : string) : Vote * bool :=
  ((user, text),
   strings.HasPrefix text "approve" || strings.HasPrefix text "reject").

Definition alice : User.t :=
  {| User.ID := "U001"; User.Name := "alice"; User.IsBot := false |}.
Definition keel1 : User.t :=
  {| User.ID := "U123"; User.Name := "keel"; User.IsBot := true |}.
Definition keel2 : User.t :=
  {| User.ID := "U456"; User.Name := "keel"; User.IsBot := true |}.

(** A user directory with two bot accounts named "keel". *)
Definition directory : list User.t := [alice; keel1; keel2].

Definition client : Client.t :=
  {| Client.GetUsers := Ok directory;
     Client.GetChannelInfo := fun channelID =>
       if String.eqb channelID "C1" then Ok {| Channel.Name := "general" |}
       else if String.eqb channelID "C2" then Ok {| Channel.Name := "random" |}
       else Err "channel_not_found";
     Client.UploadFile := fun _ => None |}.

Definition rtm : RTM.t :=
  {| RTM.GetConversationInfo := fun channelID _ =>
       if String.eqb channelID "G1" then Ok {| Channel.Name := "general" |}
       else Err "channel_not_found" |}.

(** The bot as [Configure] leaves it, with the default names. *)
Definition configured : Bot :=
  {| id := ""; name := "keel"; users := []; msgPrefix := "";
     slackClient := client; slackRTM := rtm; approvalsChannel := "general" |}.

(** The bot of the specification's scenarios. *)
Definition keel : Bot :=
  {| id := "U123"; name := "keel"; users := []; msgPrefix := "<@u123>";
     slackClient := client; slackRTM := rtm; approvalsChannel := "general" |}.


Definition empty : World Vote :=
  {| approvalsRespCh := []; botMessagesChannel := []; rtmSent := [];
     uploaded := []; logged := []; goroutines := [] |}.

Definition event (text user channel : string) : MessageEvent.t :=
  {| MessageEvent.Text := text; MessageEvent.User := user;
     MessageEvent.Channel := channel; MessageEvent.BotID := "";
     MessageEvent.SubType := "" |}.

(** The events of the scenarios. *)
Definition voteInGeneral : MessageEvent.t :=
  event "<@U123> approve payment-1" "U999" "C1".
Definition voteInRandom : MessageEvent.t :=
  event "<@U123> approve payment-1" "U999" "C2".
Definition voteInPrivate : MessageEvent.t :=
  event "<@U123> reject payment-1" "U999" "G1".
Definition statusInDM : MessageEvent.t := event "keel status" "U999" "D42".
Definition chatter : MessageEvent.t := event "hello there" "U999" "C2".
Definition fromBot : MessageEvent.t :=
  {| MessageEvent.Text := "keel status"; MessageEvent.User := "U999";
     MessageEvent.Channel := "D42"; MessageEvent.BotID := "B7";
     MessageEvent.SubType := "" |}.

End example.

(** ** The rest of the bot: configuration and the event loop *)

Module slack_run.
Import slack.

Definition set_name (b : Bot) (v : string) : Bot :=
  {| id := id b; name := v; users := users b; msgPrefix := msgPrefix b;
     slackClient := slackClient b; slackRTM := slackRTM b;
     approvalsChannel := approvalsChannel b |}.

Definition set_approvalsChannel (b : Bot) (v : string) : Bot :=
  {| id := id b; name := name b; users := users b; msgPrefix := msgPrefix b;
     slackClient := slackClient b; slackRTM := slackRTM b;
     approvalsChannel := v |}.

Definition set_slackClient (b : Bot) (v : Client.t) : Bot :=
  {| id := id b; name := name b; users := users b; msgPrefix := msgPrefix b;
     slackClient := v; slackRTM := slackRTM b;
     approvalsChannel := approvalsChannel b |}.

Section Configure.
(** The names of the environment variables, from the package
    [constants]. *)
Variables EnvSlackToken EnvSlackBotName EnvSlackApprovalsChannel : string.

(** [os.Getenv] and [slack.New]. *)
Variable Getenv : string -> string.
Variable New : string -> Client.t.

(** [Configure]: the bot as it leaves it, the boolean it returns and the
    lines it logs at the info level.  (The client is also kept as the HTTP
    client, and the two Go channels it is given are the ones of the
    world.) *)
Definition Configure (b : Bot) : Bot * bool * list string :=
  if negb (String.eqb (Getenv EnvSlackToken) "") then
    let b := set_name b "keel" in
    let b :=
      let bootName := Getenv EnvSlackBotName in
      if negb (String.eqb bootName "") then set_name b bootName else b in
    let token := Getenv EnvSlackToken in
    let client := New token in
    let b := set_approvalsChannel b "general" in
    let b :=
      let channel := Getenv EnvSlackApprovalsChannel in
      if negb (String.eqb channel "") then
        set_approvalsChannel b (strings.TrimPrefix channel "#")
      else b in
    let b := set_slackClient b client in
    (b, true, [])
  else
    (b, false, ["bot.slack.Configure(): Slack approval bot is not configured"]).
End Configure.

(** What arrives on [b.slackRTM.IncomingEvents], by the type of its data;
    [OtherEvent] is the [default] of the type switch. *)
Inductive RTMEvent :=
| HelloEvent
| ConnectedEvent
| MessageEventOf (ev : MessageEvent.t)
| PresenceChangeEvent
| RTMError (msg : string)
| InvalidAuthEvent
| OtherEvent.

(** One turn of the [select] of the loop: the context is done, or an event
    has come in. *)
Inductive Turn :=
| CtxDone
| Incoming (ev : RTMEvent).

(** How far the loop got on the turns it was given: it returned, or it is
    waiting in the [select]. *)
Inductive Outcome :=
| Returned (err : option error)
| Waiting.

Section Loop.
Variable unicodeLower : string -> string.
Variable ApprovalResponse : Type.
Variable IsApproval : string -> string -> ApprovalResponse * bool.

Notation "m ;; k" := (bind ApprovalResponse m (fun _ => k))
  (at level 61, right associativity).

(** The [for] loop of [startInternal] (after the RTM connection has been
    set up), run on the turns its [select] takes.  [log.Error], unlike
    [log.Errorf], does not format: the verb stays in the line. *)
Fixpoint eventLoop (b : Bot) (turns : list Turn) : M ApprovalResponse Outcome :=
  match turns with
  | [] => ret ApprovalResponse Waiting
  | CtxDone :: _ => ret ApprovalResponse (Returned None)
  | Incoming msg :: turns' =>
      match msg with
      | HelloEvent => eventLoop b turns'
      | ConnectedEvent => eventLoop b turns'
      | MessageEventOf ev =>
          handleMessage unicodeLower IsApproval b ev ;;
          eventLoop b turns'
      | PresenceChangeEvent => eventLoop b turns'
      | RTMError err =>
          log ApprovalResponse ErrorLevel ("Error: %s" ++ err) ;;
          eventLoop b turns'
      | InvalidAuthEvent =>
          log ApprovalResponse ErrorLevel "Invalid credentials" ;;
          ret ApprovalResponse (Returned (Some "invalid credentials"))
      | OtherEvent => eventLoop b turns'
      end
  end.
End Loop.

Arguments eventLoop unicodeLower {ApprovalResponse} IsApproval b turns w.

End slack_run.

(** ** Further notions for the properties of the whole bot *)

Module props_run.
Import strings slack slack_run props.

Section Outputs.
Context {ApprovalResponse : Type}.
Implicit Types w : World ApprovalResponse.

(** Between [w] and [w'] exactly [n] items were sent, over the two Go
    channels, the RTM connection and the uploads together, and nothing
    sent before was touched. *)
Definition grown (n : nat) w w' : Prop :=
  exists (a : list ApprovalResponse) (m : list BotMessage.t)
         (r : list OutgoingMessage.t) (u : list FileUploadParameters.t),
    approvalsRespCh w' = (a ++ approvalsRespCh w)%list
    /\ botMessagesChannel w' = (m ++ botMessagesChannel w)%list
    /\ rtmSent w' = (r ++ rtmSent w)%list
    /\ uploaded w' = (u ++ uploaded w)%list
    /\ (List.length a + List.length m + List.length r + List.length u = n)%nat.

(** The world in which nothing has happened yet. *)
Definition nothingSent : World ApprovalResponse :=
  {| approvalsRespCh := []; botMessagesChannel := []; rtmSent := [];
     uploaded := []; logged := []; goroutines := [] |}.

(** Two worlds that differ at most in their log and their goroutines. *)
Definition sameOutputs w1 w2 : Prop :=
  approvalsRespCh w1 = approvalsRespCh w2
  /\ botMessagesChannel w1 = botMessagesChannel w2
  /\ rtmSent w1 = rtmSent w2
  /\ uploaded w1 = uploaded w2.
End Outputs.

(** The event with another text. *)
Definition withText (event : MessageEvent.t) (text : string) : MessageEvent.t :=
  {| MessageEvent.Text := text;
     MessageEvent.User := MessageEvent.User event;
     MessageEvent.Channel := MessageEvent.Channel event;
     MessageEvent.BotID := MessageEvent.BotID event;
     MessageEvent.SubType := MessageEvent.SubType event |}.

(** The first guard of [handleMessage]. *)
Definition noise (event : MessageEvent.t) : bool :=
  negb (String.eqb (MessageEvent.BotID event) "")
  || String.eqb (MessageEvent.User event) ""
  || String.eqb (MessageEvent.SubType event) "bot_message".

Section Readings.
Variable unicodeLower : string -> string.

(** The event passes both guards of [handleMessage]. *)
Definition dispatched (b : Bot) (event : MessageEvent.t) : bool :=
  negb (noise event) && isBotMessage b event (normalized unicodeLower event).

(** The bot message that [handleMessage] builds from an event. *)
Definition command (b : Bot) (event : MessageEvent.t) : BotMessage.t :=
  {| BotMessage.Message := trimBot unicodeLower b (normalized unicodeLower event);
     BotMessage.User := MessageEvent.User event;
     BotMessage.Channel := MessageEvent.Channel event;
     BotMessage.Name := "slack" |}.
End Readings.

(** The text with which [handleMessage] sends a voter to the approvals
    channel, and the two forms in which [Respond] sends it. *)
Definition notice (b : Bot) : string :=
  "please use approvals channel '" ++ approvalsChannel b ++ "'".

Definition noticeMessage (b : Bot) (channel : string) : OutgoingMessage.t :=
  {| OutgoingMessage.Channel := channel;
     OutgoingMessage.Text := "```" ++ notice b ++ "```" |}.

Definition noticeUpload (b : Bot) (channel : string) : FileUploadParameters.t :=
  {| FileUploadParameters.Filename := "keel response";
     FileUploadParameters.Content := notice b;
     FileUploadParameters.Filetype := "text";
     FileUploadParameters.Channels := [channel] |}.

(** An RTM message that carries the notice, whatever its channel. *)
Definition saysNotice (b : Bot) (m : OutgoingMessage.t) : Prop :=
  OutgoingMessage.Text m = "```" ++ notice b ++ "```".

(** Every reply in the world is the notice of the bot. *)
Definition repliesAreNotices {ApprovalResponse : Type} (b : Bot)
    (w : World ApprovalResponse) : Prop :=
  Forall (saysNotice b) (rtmSent w)
  /\ Forall (fun u => FileUploadParameters.Content u = notice b) (uploaded w).

(** Two texts that differ at most in the case of their letters. *)
Definition sameLetters (s t : string) : Prop :=
  mapBytes lowerByte s = mapBytes lowerByte t.

(** The message events the loop hands to [handleMessage]: those that come
    in before the context is done or the credentials are found invalid. *)
Fixpoint handled (turns : list Turn) : list MessageEvent.t :=
  match turns with
  | [] => []
  | CtxDone :: _ => []
  | Incoming (MessageEventOf ev) :: turns' => ev :: handled turns'
  | Incoming InvalidAuthEvent :: _ => []
  | Incoming _ :: turns' => handled turns'
  end.

(** The turns on which the loop returns. *)
Definition stops (t : Turn) : bool :=
  match t with
  | CtxDone => true
  | Incoming InvalidAuthEvent => true
  | Incoming _ => false
  end.

(** A bot message tagged with the source name and whose text neither
    starts nor ends with a space, a colon or a line feed. *)
Definition tidy (m : BotMessage.t) : Prop :=
  BotMessage.Name m = "slack"
  /\ outside (" :" ++ LF) (firstByte (BotMessage.Message m))
  /\ outside (" :" ++ LF) (lastByte (BotMessage.Message m)).

(** A bot message whose text holds no upper-case byte. *)
Definition lowerCased (m : BotMessage.t) : Prop :=
  existsByte isUpperByte (BotMessage.Message m) = false.

(** The last user of the directory that the loop of [Start] takes for the
    bot. *)
Definition lastBot (b : Bot) (users : list User.t) : option User.t :=
  find (fun u => String.eqb (User.Name u) (name b) && User.IsBot u) (rev users).

End props_run.

(** ** An environment and an event stream *)

Module example_run.
Import slack slack_run example.

(** The process environment: a token, and the approvals channel written
    with its marker. *)
Definition environment (key : string) : string :=
  if String.eqb key "SLACK_TOKEN" then "xoxb-1"
  else if String.eqb key "SLACK_APPROVALS_CHANNEL" then "#releases"
  else "".

Definition environmentPlain (key : string) : string :=
  if String.eqb key "SLACK_TOKEN" then "xoxb-1"
  else if String.eqb key "SLACK_APPROVALS_CHANNEL" then "releases"
  else "".

Definition newClient (token : string) : Client.t := client.

(** The zero value of [Bot], on the example workspace. *)
Definition zero : Bot :=
  {| id := ""; name := ""; users := []; msgPrefix := "";
     slackClient := client; slackRTM := rtm; approvalsChannel := "" |}.

(** A bot started before, whose account has since left the directory. *)
Definition renamed : Bot :=
  {| id := "U123"; name := "kelvin"; users := []; msgPrefix := "<@u123>";
     slackClient := client; slackRTM := rtm; approvalsChannel := "general" |}.

(** A morning on the connection. *)
Definition stream : list Turn :=
  [ Incoming HelloEvent;
    Incoming (MessageEventOf voteInGeneral);
    Incoming (MessageEventOf chatter);
    Incoming (RTMError "socket closed");
    Incoming (MessageEventOf statusInDM);
    CtxDone;
    Incoming (MessageEventOf voteInRandom) ].

Definition shoutedStatus : MessageEvent.t := event "KEEL Status" "U999" "D42".

Definition paddedStatus : MessageEvent.t :=
  event ("  keel status" ++ LF) "U999" "D42".

End example_run.

(** ** A bot named with a letter outside ASCII *)

Module example_unicode.
Import slack example.





End example_unicode.

(** ** Facts about the string functions *)

Module strings_facts.
Import strings props.

Lemma len_app (s t : string) : len (s ++ t) = len s + len t.
Proof. induction s as [|c s IH]; simpl; [reflexivity | now rewrite IH]. Qed.

Lemma app_empty_r (s : string) : s ++ "" = s.
Proof. induction s as [|c s IH]; simpl; [reflexivity | now rewrite IH]. Qed.

Lemma app_assoc (s t u : string) : (s ++ t) ++ u = s ++ t ++ u.
Proof. induction s as [|c s IH]; simpl; [reflexivity | now rewrite IH]. Qed.

Lemma app_inv_head (s t u : string) : s ++ t = s ++ u -> t = u.
Proof.
  induction s as [|c s IH]; simpl; intros H; [exact H|].
  injection H as H. now apply IH.
Qed.

Lemma sliceFrom_app (s t : string) : sliceFrom (len s) (s ++ t) = t.
Proof. induction s as [|c s IH]; simpl; [now destruct t | exact IH]. Qed.

Lemma sliceTo_app (s t : string) : sliceTo (len s) (s ++ t) = s.
Proof. induction s as [|c s IH]; simpl; [reflexivity | now rewrite IH]. Qed.

Lemma slice_app (n : nat) (s : string) : sliceTo n s ++ sliceFrom n s = s.
Proof.
  revert s; induction n as [|n IH]; intros [|c s]; simpl; try reflexivity.
  now rewrite IH.
Qed.

Lemma sliceFrom_add (n m : nat) (s : string) :
  sliceFrom (n + m) s = sliceFrom m (sliceFrom n s).
Proof.
  revert s; induction n as [|n IH]; intros s; simpl; [reflexivity|].
  destruct s as [|c s]; [now destruct m | apply IH].
Qed.

(** [HasPrefix] decides that [s] is [prefix] followed by something. *)
Lemma HasPrefix_app (p r : string) : HasPrefix (p ++ r) p = true.
Proof.
  induction p as [|c p IH]; simpl; [reflexivity|].
  now rewrite Ascii.eqb_refl.
Qed.

Lemma HasPrefix_split (s p : string) :
  HasPrefix s p = true -> s = p ++ sliceFrom (len p) s.
Proof.
  revert s; induction p as [|b p IH]; intros s H; simpl.
  - now destruct s.
  - destruct s as [|a s]; simpl in H; [discriminate|].
    destruct (Ascii.eqb a b) eqn:E; [|discriminate].
    apply Ascii.eqb_eq in E; subst b. f_equal. now apply IH.
Qed.

Lemma HasPrefix_iff (s p : string) :
  HasPrefix s p = true <-> exists r, s = p ++ r.
Proof.
  split.
  - intros H. eexists. now apply HasPrefix_split.
  - intros [r ->]. apply HasPrefix_app.
Qed.

Lemma TrimPrefix_app (p r : string) : TrimPrefix (p ++ r) p = r.
Proof. unfold TrimPrefix. now rewrite HasPrefix_app, sliceFrom_app. Qed.

Lemma occursAt_0 (s p : string) : occursAt 0 s p <-> HasPrefix s p = true.
Proof.
  rewrite HasPrefix_iff; split.
  - intros (l & r & -> & Hl). destruct l; [|discriminate]. now exists r.
  - intros [r ->]. now exists "", r.
Qed.

Lemma occursAt_S (j : nat) (c : ascii) (s p : string) :
  occursAt (S j) (String c s) p <-> occursAt j s p.
Proof.
  split.
  - intros (l & r & E & Hl). destruct l as [|d l]; [discriminate|].
    simpl in E, Hl. injection E as -> ->. injection Hl as Hl. now exists l, r.
  - intros (l & r & -> & Hl). exists (String c l), r. simpl. now rewrite Hl.
Qed.

(** [Index] finds the leftmost instance, and answers [None] exactly when
    there is none. *)
Lemma Index_Some (s p : string) (j : nat) :
  Index s p = Some j ->
  occursAt j s p /\ forall i, occursAt i s p -> j <= i.
Proof.
  revert j; induction s as [|c s IH]; intros j; simpl.
  - destruct (HasPrefix "" p) eqn:E; [|discriminate].
    intros [= <-]. split; [now apply occursAt_0 | lia].
  - destruct (HasPrefix (String c s) p) eqn:E.
    + intros [= <-]. split; [now apply occursAt_0 | lia].
    + destruct (Index s p) as [k|] eqn:Ek; simpl; [|discriminate].
      intros [= <-]. destruct (IH k eq_refl) as [Hk Hmin]. split.
      * now apply occursAt_S.
      * intros [|i] Hi.
        -- apply occursAt_0 in Hi. congruence.
        -- apply occursAt_S in Hi. apply Hmin in Hi. lia.
Qed.

Lemma Index_None (s p : string) : Index s p = None -> ~ Contains s p.
Proof.
  induction s as [|c s IH]; simpl.
  - destruct (HasPrefix "" p) eqn:E; [discriminate|].
    intros _ [j (l & r & Hs & Hl)]. destruct l; [|discriminate].
    assert (occursAt 0 "" p) as H0 by now exists "", r.
    apply occursAt_0 in H0. congruence.
  - destruct (HasPrefix (String c s) p) eqn:E; [discriminate|].
    destruct (Index s p) eqn:Ek; simpl; [discriminate|].
    intros _ [[|j] Hj].
    + apply occursAt_0 in Hj. congruence.
    + apply occursAt_S in Hj. apply IH; [reflexivity | now exists j].
Qed.

Lemma occursAt_slices (j : nat) (s p : string) :
  occursAt j s p -> s = sliceTo j s ++ p ++ sliceFrom (j + len p) s.
Proof.
  intros (l & r & -> & <-).
  rewrite sliceTo_app, sliceFrom_add, sliceFrom_app, sliceFrom_app.
  reflexivity.
Qed.

(** [Replace] with the empty [new] and [n = 1] takes out the leftmost
    instance of [old]. *)
Lemma Replace_once (s old : string) : firstRemoved old s (Replace s old "" 1).
Proof.
  unfold Replace. destruct (String.eqb_spec old "") as [->|Hne].
  - right. exists "", s. split; [reflexivity|].
    split; [simpl; lia | reflexivity].
  - destruct (Index s old) as [j|] eqn:Ej.
    + apply Index_Some in Ej as [Hj Hmin]. right.
      exists (sliceTo j s), (sliceFrom (j + len old) s).
      assert (len (sliceTo j s) = j) as Hlen.
      { destruct Hj as (l & r & -> & <-). now rewrite sliceTo_app. }
      split; [now apply occursAt_slices|]. split.
      * intros i Hi. rewrite Hlen. now apply Hmin.
      * reflexivity.
    + left. split; [now apply Index_None | reflexivity].
Qed.

Lemma TrimPrefix_removed (s p : string) : prefixRemoved p s (TrimPrefix s p).
Proof.
  unfold TrimPrefix, prefixRemoved. destruct (HasPrefix s p) eqn:E.
  - left. now apply HasPrefix_split.
  - now right.
Qed.

(** What [firstRemoved] and [prefixRemoved] describe is unique. *)
Lemma firstRemoved_unique (p s m1 m2 : string) :
  firstRemoved p s m1 -> firstRemoved p s m2 -> m1 = m2.
Proof.
  intros [[N1 ->]|(l1 & r1 & E1 & Min1 & ->)] [[N2 ->]|(l2 & r2 & E2 & Min2 & ->)].
  - reflexivity.
  - exfalso. apply N1. exists (len l2). now exists l2, r2.
  - exfalso. apply N2. exists (len l1). now exists l1, r1.
  - assert (len l1 = len l2) as Hl.
    { apply Nat.le_antisymm;
        [apply Min1; now exists l2, r2 | apply Min2; now exists l1, r1]. }
    assert (l1 = l2) as ->.
    { rewrite <- (sliceTo_app l1 (p ++ r1)), <- (sliceTo_app l2 (p ++ r2)).
      now rewrite <- E1, <- E2, Hl. }
    rewrite E1 in E2. apply app_inv_head in E2. apply app_inv_head in E2.
    now subst.
Qed.

Lemma existsByte_app (P : ascii -> bool) (s t : string) :
  existsByte P (s ++ t) = existsByte P s || existsByte P t.
Proof.
  induction s as [|c s IH]; simpl; [reflexivity|].
  now rewrite IH, orb_assoc.
Qed.

Lemma lastByte_app (s t : string) :
  t <> "" -> lastByte (s ++ t) = lastByte t.
Proof.
  intros Ht; induction s as [|c s IH]; simpl; [reflexivity|].
  rewrite <- IH. destruct (s ++ t) eqn:E; [|reflexivity].
  destruct s; [simpl in E; congruence | discriminate].
Qed.

Lemma TrimLeft_split (s cutset : string) :
  exists l, s = l ++ TrimLeft s cutset
            /\ allBytes (fun c => inCutset c cutset) l = true
            /\ outside cutset (firstByte (TrimLeft s cutset)).
Proof.
  induction s as [|c s (l & E & Hl & Hf)]; simpl.
  - exists "". now repeat split.
  - destruct (inCutset c cutset) eqn:Ec.
    + exists (String c l). simpl. rewrite Ec, Hl. now rewrite <- E.
    + exists "". simpl. now repeat split.
Qed.

Lemma TrimRight_split (s cutset : string) :
  exists r, s = TrimRight s cutset ++ r
            /\ allBytes (fun c => inCutset c cutset) r = true
            /\ outside cutset (lastByte (TrimRight s cutset)).
Proof.
  induction s as [|c s (r & E & Hr & Hf)]; simpl.
  - exists "". now repeat split.
  - destruct (TrimRight s cutset) as [|d t] eqn:Et.
    + destruct (inCutset c cutset) eqn:Ec.
      * exists (String c r). simpl in *. subst r. now rewrite Ec, Hr.
      * exists r. simpl in *. subst r. now repeat split.
    + exists r. simpl in *. rewrite <- E. now repeat split.
Qed.

(** [Trim] takes the bytes of the cutset from both ends, and no more. *)
Lemma Trim_trimmed (s cutset : string) : trimmed cutset s (Trim s cutset).
Proof.
  unfold Trim.
  destruct (TrimRight_split s cutset) as (r & Er & Hr & Hlast).
  destruct (TrimLeft_split (TrimRight s cutset) cutset) as (l & El & Hl & Hfirst).
  exists l, r. repeat split; try assumption.
  - rewrite <- app_assoc, <- El. exact Er.
  - destruct (TrimLeft (TrimRight s cutset) cutset) eqn:Et; [exact I|].
    rewrite El in Hlast. rewrite lastByte_app in Hlast by discriminate.
    exact Hlast.
Qed.

Lemma Trim_no_new_byte (P : ascii -> bool) (s cutset : string) :
  existsByte P s = false -> existsByte P (Trim s cutset) = false.
Proof.
  destruct (Trim_trimmed s cutset) as (l & r & E & _).
  rewrite E at 1. rewrite !existsByte_app.
  intros H. apply orb_false_iff in H as [_ H].
  now apply orb_false_iff in H as [H _].
Qed.


Lemma lowerByte_not_upper (c : ascii) : isUpperByte (lowerByte c) = false.
Proof.
  unfold lowerByte. destruct (isUpperByte c) eqn:E; [|exact E].
  unfold isUpperByte in *. apply andb_true_iff in E as [E1 E2].
  apply Nat.leb_le in E1, E2.
  rewrite nat_ascii_embedding by lia.
  apply andb_false_iff. right. apply Nat.leb_gt. lia.
Qed.

Lemma mapBytes_lower_no_upper (s : string) :
  existsByte isUpperByte (mapBytes lowerByte s) = false.
Proof.
  induction s as [|c s IH]; simpl; [reflexivity|].
  now rewrite lowerByte_not_upper, IH.
Qed.

(** A lower-cased text holds no upper-case byte, as soon as the Unicode
    path yields none. *)
Lemma ToLower_no_upper (unicodeLower : string -> string) :
  (forall s, existsByte isUpperByte (unicodeLower s) = false) ->
  forall s, existsByte isUpperByte (ToLower unicodeLower s) = false.
Proof.
  intros Huni s. unfold ToLower.
  destruct (allBytes isASCIIByte s); [|apply Huni].
  destruct (existsByte isUpperByte s) eqn:E; [|exact E].
  apply mapBytes_lower_no_upper.
Qed.

(** A text of lower-case ASCII is its own lower-casing. *)
Lemma ToLower_fixed (unicodeLower : string -> string) (s : string) :
  allBytes isASCIIByte s = true -> existsByte isUpperByte s = false ->
  ToLower unicodeLower s = s.
Proof. unfold ToLower. now intros -> ->. Qed.

Lemma lowerByte_ascii (c : ascii) :
  isASCIIByte c = true -> isASCIIByte (lowerByte c) = true.
Proof.
  unfold lowerByte. destruct (isUpperByte c) eqn:E; [|trivial].
  intros _. unfold isUpperByte in E. apply andb_true_iff in E as [E1 E2].
  apply Nat.leb_le in E1, E2. unfold isASCIIByte.
  rewrite nat_ascii_embedding by lia. apply Nat.ltb_lt. lia.
Qed.

Lemma mapBytes_lower_ascii (s : string) :
  allBytes isASCIIByte s = true ->
  allBytes isASCIIByte (mapBytes lowerByte s) = true.
Proof.
  induction s as [|c s IH]; simpl; [trivial|].
  intros H. apply andb_true_iff in H as [Hc Hs].
  now rewrite lowerByte_ascii, IH.
Qed.

(** Lower-casing an ASCII text twice is lower-casing it once: the mention
    prefix that [Start] computes from an ASCII identifier is the one
    [trimBot] looks for. *)
Lemma ToLower_twice (unicodeLower : string -> string) (s : string) :
  allBytes isASCIIByte s = true ->
  ToLower unicodeLower (ToLower unicodeLower s) = ToLower unicodeLower s.
Proof.
  intros Hs. apply ToLower_fixed.
  - unfold ToLower. rewrite Hs.
    destruct (existsByte isUpperByte s); [now apply mapBytes_lower_ascii | exact Hs].
  - unfold ToLower. rewrite Hs.
    destruct (existsByte isUpperByte s) eqn:E; [apply mapBytes_lower_no_upper | exact E].
Qed.

Lemma splitsAt_head (p r : string) : In ("", r) (splitsAt p (p ++ r)).
Proof.
  destruct (p ++ r) eqn:E; simpl; rewrite <- E;
    rewrite HasPrefix_app, sliceFrom_app; now left.
Qed.

Lemma splitsAt_complete (p s l r : string) :
  s = l ++ p ++ r -> In (l, r) (splitsAt p s).
Proof.
  revert s; induction l as [|c l IH]; intros s ->.
  - exact (splitsAt_head p r).
  - simpl. apply in_or_app. right.
    apply (in_map (fun lr => (String c (fst lr), snd lr)) _ (l, r)).
    now apply IH.
Qed.

End strings_facts.

(** ** The bot's behaviour *)

Module slack_facts.
Import strings slack props strings_facts.

Lemma name_scanUsers (users : list User.t) (b : Bot) :
  name (scanUsers b users) = name b.
Proof.
  unfold scanUsers. revert b; induction users as [|u users IH]; intros b; simpl.
  - reflexivity.
  - rewrite IH. destruct (String.eqb _ _); [|reflexivity].
    now destruct (User.IsBot u).
Qed.

Lemma scanUsers_app (users1 users2 : list User.t) (b : Bot) :
  scanUsers b (users1 ++ users2)%list = scanUsers (scanUsers b users1) users2.
Proof. apply fold_left_app. Qed.

Lemma scanUsers_none (users : list User.t) (b : Bot) :
  (forall u, In u users -> ~ isTheBot b u) -> scanUsers b users = b.
Proof.
  unfold scanUsers. induction users as [|u users IH]; intros Hno; simpl.
  - reflexivity.
  - assert (~ isTheBot b u) as Hu by (apply Hno; now left).
    destruct (String.eqb_spec (User.Name u) (name b)) as [En|_].
    + destruct (User.IsBot u) eqn:Eb.
      * exfalso. apply Hu. now split.
      * apply IH. intros v Hv. apply Hno. now right.
    + apply IH. intros v Hv. apply Hno. now right.
Qed.

(** The loop leaves the identifier of the last user it takes for the
    bot. *)
Lemma scanUsers_last (pre post : list User.t) (u : User.t) (b : Bot) :
  isTheBot b u -> (forall v, In v post -> ~ isTheBot b v) ->
  id (scanUsers b (pre ++ u :: post)%list) = User.ID u.
Proof.
  intros [Hn Hb] Hpost. rewrite scanUsers_app.
  change (scanUsers (scanUsers b pre) (u :: post))
    with (scanUsers (scanUsers (scanUsers b pre) [u]) post).
  assert (scanUsers (scanUsers b pre) [u] = set_id (scanUsers b pre) (User.ID u)) as ->.
  { unfold scanUsers at 1. simpl. fold (scanUsers b pre).
    rewrite name_scanUsers, Hn, String.eqb_refl, Hb. reflexivity. }
  rewrite scanUsers_none; [reflexivity|].
  intros v Hv [Hvn Hvb]. apply (Hpost v Hv). split; [|exact Hvb].
  rewrite Hvn. simpl. apply name_scanUsers.
Qed.

(** Two ways to cut one text: the shorter head is a head of the longer. *)
Lemma app_eq_app_le (u' v' u v : string) :
  u' ++ v' = u ++ v -> len u' <= len u ->
  exists x, u = u' ++ x /\ v' = x ++ v.
Proof.
  revert u; induction u' as [|c u' IH]; intros u E Hle; simpl in *.
  - now exists u.
  - destruct u as [|d u]; simpl in *; [lia|].
    injection E as -> E. destruct (IH u E) as (x & -> & ->); [lia|].
    now exists x.
Qed.

Section Router.
Variable unicodeLower : string -> string.
Context {ApprovalResponse : Type}.
Variable IsApproval : string -> string -> ApprovalResponse * bool.
Implicit Types (b : Bot) (event : MessageEvent.t) (w : World ApprovalResponse).

Local Abbreviation handleMessage := (slack.handleMessage unicodeLower IsApproval).
Local Abbreviation normalized := (props.normalized unicodeLower).
Local Abbreviation trimBot := (slack.trimBot unicodeLower).

(** The channel check only writes to the log. *)
Lemma isApprovalsChannel_quiet b event w :
  noneQueued w (snd (isApprovalsChannel b event w))
  /\ noReply w (snd (isApprovalsChannel b event w)).
Proof.
  unfold isApprovalsChannel, noneQueued, noReply.
  destruct (Client.GetChannelInfo _ _) as [channel|e].
  - unfold bind; simpl. now destruct (String.eqb _ _).
  - destruct (RTM.GetConversationInfo _ _ _) as [conv|e'].
    + now destruct (String.eqb _ _).
    + now unfold bind.
Qed.

(** [Respond] sends exactly one reply and nothing on the Go channels. *)
Lemma Respond_replies b (text channel : string) w :
  noneQueued w (snd (Respond b text channel w))
  /\ oneReply text channel w (snd (Respond b text channel w)).
Proof.
  unfold Respond, noneQueued, oneReply, formatAsSnippet.
  destruct (Nat.ltb _ _).
  - simpl. split; [now split | left; now split].
  - unfold bind, UploadFile.
    destruct (Client.UploadFile _ _); simpl;
      (split; [now split | right; now split]).
Qed.

Lemma noise_filter_passes event :
  notNoise event ->
  negb (String.eqb (MessageEvent.BotID event) "")
  || String.eqb (MessageEvent.User event) ""
  || String.eqb (MessageEvent.SubType event) "bot_message" = false.
Proof.
  intros (-> & Hu & Hs).
  apply String.eqb_neq in Hu, Hs. now rewrite Hu, Hs.
Qed.

(** C3.  An event written by a bot ([BotID] not empty), without a sender
    ([User] empty) or of subtype "bot_message" puts nothing on either Go
    channel and draws no reply. *)
Theorem handleMessage_ignores_noise b event w :
  MessageEvent.BotID event <> ""
  \/ MessageEvent.User event = ""
  \/ MessageEvent.SubType event = "bot_message" ->
  noneQueued w (snd (handleMessage b event w))
  /\ noReply w (snd (handleMessage b event w)).
Proof.
  intros Hnoise. unfold slack.handleMessage.
  assert (negb (String.eqb (MessageEvent.BotID event) "")
          || String.eqb (MessageEvent.User event) ""
          || String.eqb (MessageEvent.SubType event) "bot_message" = true) as ->.
  { destruct Hnoise as [H|[H|H]].
    - apply String.eqb_neq in H. now rewrite H.
    - rewrite H. simpl. now rewrite orb_true_r.
    - rewrite H. simpl. now rewrite orb_true_r. }
  now unfold noneQueued, noReply.
Qed.

(** C4.  An event that passes the noise filter, whose normalized text
    starts with neither the mention prefix nor the bot's name and whose
    channel identifier does not start with 'D', is dropped: nothing is
    queued, no reply is sent, the world is as before. *)
Theorem handleMessage_drops_unaddressed b event w :
  notNoise event ->
  HasPrefix (normalized event) (msgPrefix b) = false ->
  HasPrefix (normalized event) (name b) = false ->
  HasPrefix (MessageEvent.Channel event) "D" = false ->
  handleMessage b event w = (tt, w)
  /\ noneQueued w (snd (handleMessage b event w))
  /\ noReply w (snd (handleMessage b event w)).
Proof.
  intros Hn Hm Hname Hd.
  assert (handleMessage b event w = (tt, w)) as E.
  { unfold slack.handleMessage. rewrite (noise_filter_passes _ Hn).
    unfold isBotMessage, existsb.
    unfold props.normalized in Hm, Hname. now rewrite Hm, Hname, Hd. }
  rewrite E. now unfold noneQueued, noReply.
Qed.

(** C1.  For an event that passes the noise filter and the addressed-to-bot
    filter and whose stripped text the parser takes for a vote: in the
    approvals channel the vote alone is queued, with no bot message and no
    reply; elsewhere nothing is queued and exactly one reply, naming the
    approvals channel, goes to the channel of the event. *)
Theorem handleMessage_vote b event w (approval : ApprovalResponse) :
  notNoise event ->
  isBotMessage b event (normalized event) = true ->
  IsApproval (MessageEvent.User event) (trimBot b (normalized event))
    = (approval, true) ->
  let w' := snd (handleMessage b event w) in
  if fst (isApprovalsChannel b event w) then
    approvalsRespCh w' = approval :: approvalsRespCh w
    /\ botMessagesChannel w' = botMessagesChannel w
    /\ noReply w w'
  else
    noneQueued w w'
    /\ oneReply ("please use approvals channel '" ++ approvalsChannel b ++ "'")
         (MessageEvent.Channel event) w w'.
Proof.
  intros Hn Hbot Hvote.
  set (notice := "please use approvals channel '" ++ approvalsChannel b ++ "'").
  assert (handleMessage b event w
          = let (inApprovals, w1) := isApprovalsChannel b event w in
            if inApprovals then sendApproval ApprovalResponse approval w1
            else Respond b notice (MessageEvent.Channel event)
                   (snd (log ApprovalResponse WarnLevel
                           ("message was received not in approvals channel: "
                              ++ MessageEvent.Channel event) w1))) as E.
  { unfold slack.handleMessage. rewrite (noise_filter_passes _ Hn).
    unfold props.normalized in Hbot, Hvote. rewrite Hbot, Hvote.
    unfold bind; cbn [negb]; cbv beta.
    now destruct (isApprovalsChannel b event w) as [[|] w1]. }
  rewrite E; clear E.
  destruct (isApprovalsChannel_quiet b event w) as [[Qa Qb] [Qr Qu]].
  destruct (isApprovalsChannel b event w) as [[|] w1]; cbn [fst snd] in *.
  - unfold noReply, sendApproval; cbn [snd approvalsRespCh botMessagesChannel rtmSent uploaded].
    now rewrite Qa, Qb, Qr, Qu.
  - set (w2 := snd (log ApprovalResponse WarnLevel _ w1)).
    destruct (Respond_replies b notice (MessageEvent.Channel event) w2)
      as [[Ra Rb] R1].
    unfold oneReply in R1.
    change (approvalsRespCh w2) with (approvalsRespCh w1) in Ra.
    change (botMessagesChannel w2) with (botMessagesChannel w1) in Rb.
    change (rtmSent w2) with (rtmSent w1) in R1.
    change (uploaded w2) with (uploaded w1) in R1.
    rewrite Qa in Ra. rewrite Qb in Rb. rewrite Qr, Qu in R1.
    split; [split; assumption | exact R1].
Qed.

(** C2.  For an event that passes both filters and whose stripped text is
    no vote, exactly one bot message with the stripped text, the sender,
    the channel and the source name "slack" is queued for the commands;
    nothing is queued for the approvals and no reply is sent. *)
Theorem handleMessage_command b event w (approval : ApprovalResponse) :
  notNoise event ->
  isBotMessage b event (normalized event) = true ->
  IsApproval (MessageEvent.User event) (trimBot b (normalized event))
    = (approval, false) ->
  let w' := snd (handleMessage b event w) in
  botMessagesChannel w'
    = {| BotMessage.Message := trimBot b (normalized event);
         BotMessage.User := MessageEvent.User event;
         BotMessage.Channel := MessageEvent.Channel event;
         BotMessage.Name := "slack" |} :: botMessagesChannel w
  /\ approvalsRespCh w' = approvalsRespCh w
  /\ noReply w w'.
Proof.
  intros Hn Hbot Hvote. unfold slack.handleMessage.
  rewrite (noise_filter_passes _ Hn).
  unfold props.normalized in Hbot, Hvote. rewrite Hbot, Hvote.
  now unfold noReply.
Qed.

(** C7.  The channel check asks the public-channel lookup first and, when
    it answers, compares the channel's name with the approvals channel;
    when it fails, the conversation lookup (called with [true]) is asked,
    and the answer is true only if it finds a conversation of that name;
    when both fail the answer is false.  Nothing is queued or sent. *)
Theorem isApprovalsChannel_lookups b event w :
  let channelID := MessageEvent.Channel event in
  let answer := fst (isApprovalsChannel b event w) in
  ((exists channel,
      Client.GetChannelInfo (slackClient b) channelID = Ok channel
      /\ answer = String.eqb (Channel.Name channel) (approvalsChannel b))
   \/ (exists err conv,
         Client.GetChannelInfo (slackClient b) channelID = Err err
         /\ RTM.GetConversationInfo (slackRTM b) channelID true = Ok conv
         /\ answer = String.eqb (Channel.Name conv) (approvalsChannel b))
   \/ (exists err err',
         Client.GetChannelInfo (slackClient b) channelID = Err err
         /\ RTM.GetConversationInfo (slackRTM b) channelID true = Err err'
         /\ answer = false))
  /\ noneQueued w (snd (isApprovalsChannel b event w))
  /\ noReply w (snd (isApprovalsChannel b event w)).
Proof.
  split; [|apply isApprovalsChannel_quiet].
  unfold isApprovalsChannel.
  destruct (Client.GetChannelInfo _ _) as [channel|e].
  - left. exists channel. split; [reflexivity|].
    unfold bind; simpl. now destruct (String.eqb _ _).
  - right. destruct (RTM.GetConversationInfo _ _ _) as [conv|e'].
    + left. exists e, conv. repeat split. now destruct (String.eqb _ _).
    + right. now exists e, e'.
Qed.

(** C9.  [Respond] takes exactly one of two paths: a text of fewer than
    3000 bytes is sent as one RTM message, wrapped in a verbatim block; any
    other text is uploaded as the text file "keel response" to the
    channel. *)
Theorem Respond_paths b (text channel : string) w :
  let w' := snd (Respond b text channel w) in
  (len text < 3000
   /\ rtmSent w' = {| OutgoingMessage.Channel := channel;
                      OutgoingMessage.Text := "```" ++ text ++ "```" |}
                     :: rtmSent w
   /\ uploaded w' = uploaded w)
  \/ (3000 <= len text
      /\ rtmSent w' = rtmSent w
      /\ uploaded w'
         = {| FileUploadParameters.Filename := "keel response";
              FileUploadParameters.Content := text;
              FileUploadParameters.Filetype := "text";
              FileUploadParameters.Channels := [channel] |} :: uploaded w).
Proof.
  unfold Respond, formatAsSnippet.
  destruct (Nat.ltb_spec (len text) 3000) as [Hlt|Hge].
  - left. now repeat split.
  - right. split; [exact Hge|].
    unfold bind, UploadFile. now destruct (Client.UploadFile _ _).
Qed.


(** C5, as the code has it.  [trimBot] takes out the leftmost instance of
    the mention prefix wherever it stands in the text, then takes the
    bot's name from the start of what is left if it starts with it
    (whether or not a mention was taken out), and then trims spaces,
    colons and line feeds from both ends. *)
Theorem trimBot_strips b (msg : string) :
  exists mid rest,
    firstRemoved (mention unicodeLower b) msg mid
    /\ prefixRemoved (name b) mid rest
    /\ trimmed (" :" ++ LF) rest (trimBot b msg).
Proof.
  exists (Replace msg (mention unicodeLower b) "" 1).
  exists (TrimPrefix (Replace msg (mention unicodeLower b) "" 1) (name b)).
  split; [apply Replace_once|].
  split; [apply TrimPrefix_removed|].
  apply Trim_trimmed.
Qed.

(** Where the mention prefix does not occur in the text, [trimBot] and the
    specification's wording of the step agree. *)
Lemma trimBot_without_mention b (msg : string) :
  ~ Contains msg (mention unicodeLower b) ->
  trimBot b msg = stripAtStart unicodeLower b msg.
Proof.
  intros Hno. unfold slack.trimBot, stripAtStart.
  fold (mention unicodeLower b).
  assert (Replace msg (mention unicodeLower b) "" 1 = msg) as ->.
  { apply (firstRemoved_unique (mention unicodeLower b) msg);
      [apply Replace_once | now left]. }
  assert (HasPrefix msg (mention unicodeLower b) = false) as ->.
  { destruct (HasPrefix _ _) eqn:E; [|reflexivity].
    exfalso. apply Hno. exists 0. now apply occursAt_0. }
  reflexivity.
Qed.

(** C8, as the code has it.  From a text that holds the mention prefix
    twice, [trimBot] takes out the leftmost instance only: another one
    still stands in what followed it.  The rest of the text is unchanged,
    apart from the bot's name, taken from its start if it starts with it,
    and the final trim. *)
Theorem trimBot_strips_one_mention b (msg : string) :
  (exists a c d, msg = a ++ mention unicodeLower b ++ c ++ mention unicodeLower b ++ d) ->
  exists l r,
    msg = l ++ mention unicodeLower b ++ r
    /\ (forall i, occursAt i msg (mention unicodeLower b) -> len l <= i)
    /\ Contains r (mention unicodeLower b)
    /\ trimBot b msg = Trim (TrimPrefix (l ++ r) (name b)) (" :" ++ LF).
Proof.
  intros (a & c & d & Hmsg). set (p := mention unicodeLower b) in *.
  destruct (Replace_once msg p) as [[Hno _]|(l & r & E & Hmin & Hrep)].
  - exfalso. apply Hno. exists (len a). now exists a, (c ++ p ++ d).
  - exists l, r. split; [exact E|]. split; [exact Hmin|]. split.
    + assert (len l <= len a) as Hle.
      { apply Hmin. now exists a, (c ++ p ++ d). }
      assert ((l ++ p) ++ r = (a ++ p) ++ c ++ p ++ d) as E2.
      { rewrite !app_assoc. now rewrite <- E, <- Hmsg. }
      apply app_eq_app_le in E2 as (x & _ & ->);
        [|rewrite !len_app; lia].
      exists (len (x ++ c)), (x ++ c), d. split; [|reflexivity].
      now rewrite !app_assoc.
    + unfold slack.trimBot.
      change (ToLower unicodeLower (msgPrefix b)) with p. now rewrite Hrep.
Qed.

(** C6, as the code has it.  [Start] on a bot whose identifier is still
    empty and whose user directory is [users]: when no user is named as the
    bot and flagged as a bot, it returns an error and launches nothing;
    otherwise the last such user of the directory gives the bot its
    identifier, and if that identifier is not empty the mention prefix is
    computed from it and the event loop is launched. *)
Theorem Start_picks_last b (users : list User.t) w :
  id b = "" ->
  Client.GetUsers (slackClient b) = Ok users ->
  let b' := fst (fst (Start unicodeLower b w)) in
  let err := snd (fst (Start unicodeLower b w)) in
  let w' := snd (Start unicodeLower b w) in
  ((forall u, In u users -> ~ isTheBot b u) ->
   err <> None /\ goroutines w' = goroutines w)
  /\ (forall pre u post,
        users = (pre ++ u :: post)%list ->
        isTheBot b u ->
        (forall v, In v post -> ~ isTheBot b v) ->
        id b' = User.ID u
        /\ (User.ID u <> "" ->
            err = None
            /\ msgPrefix b' = ToLower unicodeLower ("<@" ++ User.ID u ++ ">")
            /\ goroutines w' = startInternal :: goroutines w)).
Proof.
  intros Hid Husers. unfold Start. rewrite Husers. split.
  - intros Hno. rewrite (scanUsers_none users (set_users b [])) by exact Hno.
    simpl. rewrite Hid. simpl. split; [discriminate | reflexivity].
  - intros pre u post -> Hu Hpost.
    pose proof (scanUsers_last pre post u (set_users b []) Hu Hpost) as Hlast.
    destruct (String.eqb_spec (id (scanUsers (set_users b []) (pre ++ u :: post))) "")
      as [Hempty|Hfull].
    + simpl. split; [exact Hlast|]. intros Hne. congruence.
    + unfold bind; simpl. split; [exact Hlast|]. intros _.
      now rewrite Hlast.
Qed.

End Router.

End slack_facts.

(** ** The bot at work on the example workspace *)

Module scenarios.
Import strings slack props strings_facts example.

Example ToLower_mention :
  ToLower lowerBytes "<@U123> Approve Payment-1" = "<@u123> approve payment-1".
Proof. reflexivity. Qed.

Example Trim_separators : Trim (" : status:" ++ LF) (" :" ++ LF) = "status".
Proof. reflexivity. Qed.

Example Replace_leftmost :
  Replace "a<@u1>b<@u1>c" "<@u1>" "" 1 = "ab<@u1>c".
Proof. reflexivity. Qed.

(** The scenarios of the specification. *)
Example vote_in_approvals_channel :
  approvalsRespCh (snd (handleMessage lowerBytes IsApproval keel voteInGeneral empty))
    = [("U999", "approve payment-1")]
  /\ botMessagesChannel (snd (handleMessage lowerBytes IsApproval keel voteInGeneral empty))
     = [].
Proof. now split. Qed.

Example vote_in_private_approvals_channel :
  approvalsRespCh (snd (handleMessage lowerBytes IsApproval keel voteInPrivate empty))
    = [("U999", "reject payment-1")].
Proof. reflexivity. Qed.

Example vote_elsewhere :
  rtmSent (snd (handleMessage lowerBytes IsApproval keel voteInRandom empty))
    = [ {| OutgoingMessage.Channel := "C2";
           OutgoingMessage.Text := "```please use approvals channel 'general'```" |} ].
Proof. reflexivity. Qed.

Example status_in_direct_message :
  botMessagesChannel (snd (handleMessage lowerBytes IsApproval keel statusInDM empty))
    = [ {| BotMessage.Message := "status"; BotMessage.User := "U999";
           BotMessage.Channel := "D42"; BotMessage.Name := "slack" |} ].
Proof. reflexivity. Qed.

Lemma handleMessage_ignores_noise_witness :
  (MessageEvent.BotID fromBot <> ""
   \/ MessageEvent.User fromBot = ""
   \/ MessageEvent.SubType fromBot = "bot_message")
  /\ noneQueued empty (snd (handleMessage lowerBytes IsApproval keel fromBot empty))
  /\ noReply empty (snd (handleMessage lowerBytes IsApproval keel fromBot empty)).
Proof.
  assert (MessageEvent.BotID fromBot <> ""
          \/ MessageEvent.User fromBot = ""
          \/ MessageEvent.SubType fromBot = "bot_message") as H
    by (left; discriminate).
  exact (conj H
           (slack_facts.handleMessage_ignores_noise lowerBytes IsApproval
              keel fromBot empty H)).
Defined.

Lemma handleMessage_drops_unaddressed_witness :
  notNoise chatter
  /\ HasPrefix (normalized lowerBytes chatter) (msgPrefix keel) = false
  /\ HasPrefix (normalized lowerBytes chatter) (name keel) = false
  /\ HasPrefix (MessageEvent.Channel chatter) "D" = false
  /\ handleMessage lowerBytes IsApproval keel chatter empty = (tt, empty)
  /\ noneQueued empty (snd (handleMessage lowerBytes IsApproval keel chatter empty))
  /\ noReply empty (snd (handleMessage lowerBytes IsApproval keel chatter empty)).
Proof.
  assert (notNoise chatter) as H1 by (repeat split; discriminate).
  assert (HasPrefix (normalized lowerBytes chatter) (msgPrefix keel) = false)
    as H2 by reflexivity.
  assert (HasPrefix (normalized lowerBytes chatter) (name keel) = false)
    as H3 by reflexivity.
  assert (HasPrefix (MessageEvent.Channel chatter) "D" = false)
    as H4 by reflexivity.
  exact (conj H1 (conj H2 (conj H3 (conj H4
           (slack_facts.handleMessage_drops_unaddressed lowerBytes IsApproval
              keel chatter empty H1 H2 H3 H4))))).
Defined.

Lemma handleMessage_vote_witness :
  notNoise voteInRandom
  /\ isBotMessage keel voteInRandom (normalized lowerBytes voteInRandom) = true
  /\ IsApproval (MessageEvent.User voteInRandom)
       (trimBot lowerBytes keel (normalized lowerBytes voteInRandom))
     = (("U999", "approve payment-1"), true)
  /\ fst (isApprovalsChannel keel voteInRandom empty) = false
  /\ noneQueued empty
       (snd (handleMessage lowerBytes IsApproval keel voteInRandom empty))
  /\ oneReply "please use approvals channel 'general'" "C2" empty
       (snd (handleMessage lowerBytes IsApproval keel voteInRandom empty)).
Proof.
  assert (notNoise voteInRandom) as H1 by (repeat split; discriminate).
  assert (isBotMessage keel voteInRandom (normalized lowerBytes voteInRandom) = true)
    as H2 by reflexivity.
  assert (IsApproval (MessageEvent.User voteInRandom)
            (trimBot lowerBytes keel (normalized lowerBytes voteInRandom))
          = (("U999", "approve payment-1"), true)) as H3 by reflexivity.
  exact (conj H1 (conj H2 (conj H3 (conj eq_refl
           (slack_facts.handleMessage_vote lowerBytes IsApproval
              keel voteInRandom empty _ H1 H2 H3))))).
Defined.

Lemma handleMessage_command_witness :
  notNoise statusInDM
  /\ isBotMessage keel statusInDM (normalized lowerBytes statusInDM) = true
  /\ IsApproval (MessageEvent.User statusInDM)
       (trimBot lowerBytes keel (normalized lowerBytes statusInDM))
     = (("U999", "status"), false)
  /\ botMessagesChannel
       (snd (handleMessage lowerBytes IsApproval keel statusInDM empty))
     = [ {| BotMessage.Message := "status"; BotMessage.User := "U999";
            BotMessage.Channel := "D42"; BotMessage.Name := "slack" |} ]
  /\ approvalsRespCh
       (snd (handleMessage lowerBytes IsApproval keel statusInDM empty)) = []
  /\ noReply empty
       (snd (handleMessage lowerBytes IsApproval keel statusInDM empty)).
Proof.
  assert (notNoise statusInDM) as H1 by (repeat split; discriminate).
  assert (isBotMessage keel statusInDM (normalized lowerBytes statusInDM) = true)
    as H2 by reflexivity.
  assert (IsApproval (MessageEvent.User statusInDM)
            (trimBot lowerBytes keel (normalized lowerBytes statusInDM))
          = (("U999", "status"), false)) as H3 by reflexivity.
  exact (conj H1 (conj H2 (conj H3
           (slack_facts.handleMessage_command lowerBytes IsApproval
              keel statusInDM empty _ H1 H2 H3)))).
Defined.


(** C5, as the specification words it, fails twice over: a text in a
    direct-message channel that starts with neither prefix loses the
    mention inside it, and a text that starts with the mention loses the
    name behind it as well. *)
Lemma trimBot_not_stripAtStart :
  (HasPrefix "status <@u123> now" (mention lowerBytes keel) = false
   /\ HasPrefix "status <@u123> now" (name keel) = false
   /\ stripAtStart lowerBytes keel "status <@u123> now" = "status <@u123> now"
   /\ trimBot lowerBytes keel "status <@u123> now" = "status  now"
   /\ trimBot lowerBytes keel "status <@u123> now"
      <> stripAtStart lowerBytes keel "status <@u123> now")
  /\ (HasPrefix "<@u123>keel status" (mention lowerBytes keel) = true
      /\ stripAtStart lowerBytes keel "<@u123>keel status" = "keel status"
      /\ trimBot lowerBytes keel "<@u123>keel status" = "status"
      /\ trimBot lowerBytes keel "<@u123>keel status"
         <> stripAtStart lowerBytes keel "<@u123>keel status").
Proof. repeat split; discriminate. Qed.

(** C8, as the specification words it, fails: the name at the start of the
    text goes as well, so the result is not the text less one mention. *)
Lemma trimBot_strips_name_too :
  (exists a c d,
     "keel <@u123> <@u123> status"
     = a ++ mention lowerBytes keel ++ c ++ mention lowerBytes keel ++ d)
  /\ trimBot lowerBytes keel "keel <@u123> <@u123> status" = "<@u123> status"
  /\ ~ oneMentionRemoved lowerBytes keel "keel <@u123> <@u123> status".
Proof.
  split; [now exists "keel ", " ", " status"|].
  split; [reflexivity|].
  intros (l & r & E & H).
  apply splitsAt_complete in E. vm_compute in E.
  destruct E as [E|[E|[]]]; injection E as <- <-; vm_compute in H; discriminate.
Qed.

Lemma trimBot_strips_one_mention_witness :
  (exists a c d,
     "<@u123> hi <@u123>"
     = a ++ mention lowerBytes keel ++ c ++ mention lowerBytes keel ++ d)
  /\ exists l r,
       "<@u123> hi <@u123>" = l ++ mention lowerBytes keel ++ r
       /\ (forall i, occursAt i "<@u123> hi <@u123>" (mention lowerBytes keel)
                     -> len l <= i)
       /\ Contains r (mention lowerBytes keel)
       /\ trimBot lowerBytes keel "<@u123> hi <@u123>"
          = Trim (TrimPrefix (l ++ r) (name keel)) (" :" ++ LF).
Proof.
  assert (exists a c d,
            "<@u123> hi <@u123>"
            = a ++ mention lowerBytes keel ++ c ++ mention lowerBytes keel ++ d)
    as H by (exists "", " hi ", ""; reflexivity).
  exact (conj H
           (slack_facts.trimBot_strips_one_mention lowerBytes keel
              "<@u123> hi <@u123>" H)).
Defined.

(** C6, as the specification words it, fails: of two bot accounts named
    "keel" the loop keeps the second. *)
Lemma Start_not_first_match :
  Client.GetUsers (slackClient configured) = Ok directory
  /\ firstBot configured directory = Some keel1
  /\ snd (fst (Start lowerBytes configured empty)) = None
  /\ id (fst (fst (Start lowerBytes configured empty))) = "U456"
  /\ id (fst (fst (Start lowerBytes configured empty))) <> User.ID keel1.
Proof. repeat split. discriminate. Qed.

Lemma Start_picks_last_witness :
  id configured = ""
  /\ Client.GetUsers (slackClient configured) = Ok directory
  /\ id (fst (fst (Start lowerBytes configured empty))) = User.ID keel2
  /\ snd (fst (Start lowerBytes configured empty)) = None
  /\ msgPrefix (fst (fst (Start lowerBytes configured empty))) = "<@u456>"
  /\ goroutines (snd (Start lowerBytes configured empty)) = [startInternal].
Proof.
  assert (id configured = "") as H1 by reflexivity.
  assert (Client.GetUsers (slackClient configured) = Ok directory)
    as H2 by reflexivity.
  destruct (slack_facts.Start_picks_last lowerBytes configured directory empty H1 H2)
    as [_ Hlast].
  destruct (Hlast [alice; keel1] keel2 [] eq_refl (conj eq_refl eq_refl)
              (fun v (Hv : In v []) => match Hv with end)) as [Hid Hgo].
  destruct (Hgo ltac:(discriminate)) as (Herr & Hprefix & Hgor).
  exact (conj H1 (conj H2 (conj Hid (conj Herr (conj Hprefix Hgor))))).
Defined.

End scenarios.

(** ** More facts about the string functions *)

Module strings_more.
Import strings props strings_facts.

Lemma allBytes_app (P : ascii -> bool) (s t : string) :
  allBytes P (s ++ t) = allBytes P s && allBytes P t.
Proof.
  induction s as [|c s IH]; simpl; [reflexivity|].
  now rewrite IH, andb_assoc.
Qed.

Lemma mapBytes_app (f : ascii -> ascii) (s t : string) :
  mapBytes f (s ++ t) = mapBytes f s ++ mapBytes f t.
Proof. induction s as [|c s IH]; simpl; [reflexivity | now rewrite IH]. Qed.

Lemma mapBytes_lower_fixed (s : string) :
  existsByte isUpperByte s = false -> mapBytes lowerByte s = s.
Proof.
  induction s as [|c s IH]; simpl; [reflexivity|].
  intros H. apply orb_false_iff in H as [Hc Hs].
  unfold lowerByte at 1. now rewrite Hc, IH.
Qed.

(** On ASCII texts [ToLower] is the byte-wise lower-casing. *)
Lemma ToLower_ascii (unicodeLower : string -> string) (s : string) :
  allBytes isASCIIByte s = true ->
  ToLower unicodeLower s = mapBytes lowerByte s.
Proof.
  intros Hs. unfold ToLower. rewrite Hs.
  destruct (existsByte isUpperByte s) eqn:E; [reflexivity|].
  symmetry. now apply mapBytes_lower_fixed.
Qed.

Lemma TrimLeft_clean (l t cutset : string) :
  allBytes (fun c => inCutset c cutset) l = true ->
  outside cutset (firstByte t) ->
  TrimLeft (l ++ t) cutset = t.
Proof.
  intros Hl Ht. induction l as [|c l IH]; simpl in *.
  - destruct t as [|d t]; simpl in *; [reflexivity | now rewrite Ht].
  - apply andb_true_iff in Hl as [Hc Hl]. rewrite Hc. now apply IH.
Qed.

Lemma TrimRight_all (r cutset : string) :
  allBytes (fun c => inCutset c cutset) r = true -> TrimRight r cutset = "".
Proof.
  induction r as [|c r IH]; simpl; [reflexivity|].
  intros H. apply andb_true_iff in H as [Hc Hr]. now rewrite IH, Hc.
Qed.

Lemma TrimRight_clean (t r cutset : string) :
  outside cutset (lastByte t) ->
  allBytes (fun c => inCutset c cutset) r = true ->
  TrimRight (t ++ r) cutset = t.
Proof.
  intros Ht Hr. induction t as [|c t IH]; simpl.
  - now apply TrimRight_all.
  - destruct t as [|d t].
    + simpl in *. rewrite (TrimRight_all r cutset Hr). now rewrite Ht.
    + now rewrite IH.
Qed.

(** [Trim] finds the one text that [trimmed] describes. *)
Lemma Trim_of_trimmed (cutset s t : string) :
  trimmed cutset s t -> Trim s cutset = t.
Proof.
  intros (l & r & -> & Hl & Hr & Hfirst & Hlast). unfold Trim.
  destruct t as [|c t].
  - simpl "++". rewrite TrimRight_all; [reflexivity|].
    now rewrite allBytes_app, Hl, Hr.
  - rewrite <- app_assoc, TrimRight_clean; [now apply TrimLeft_clean | | exact Hr].
    now rewrite lastByte_app.
Qed.

(** Bytes of the cutset around a text do not change what [Trim] leaves. *)
Lemma Trim_padding (cutset l s r : string) :
  allBytes (fun c => inCutset c cutset) l = true ->
  allBytes (fun c => inCutset c cutset) r = true ->
  Trim (l ++ s ++ r) cutset = Trim s cutset.
Proof.
  intros Hl Hr. apply Trim_of_trimmed.
  destruct (Trim_trimmed s cutset) as (l0 & r0 & E & Hl0 & Hr0 & Hf & Hla).
  exists (l ++ l0), (r0 ++ r). repeat split; try assumption.
  - rewrite E at 1. now rewrite !app_assoc.
  - now rewrite allBytes_app, Hl, Hl0.
  - now rewrite allBytes_app, Hr0, Hr.
Qed.

Lemma trimmed_len (cutset s t : string) : trimmed cutset s t -> len t <= len s.
Proof. intros (l & r & -> & _). rewrite !len_app. lia. Qed.

Lemma firstRemoved_len (p s mid : string) :
  firstRemoved p s mid -> len mid <= len s.
Proof.
  intros [[_ ->]|(l & r & -> & _ & ->)]; [lia|]. rewrite !len_app. lia.
Qed.

Lemma prefixRemoved_len (p s rest : string) :
  prefixRemoved p s rest -> len rest <= len s.
Proof. intros [->|[_ ->]]; [rewrite len_app|]; lia. Qed.

Lemma trimmed_no_new_byte (P : ascii -> bool) (cutset s t : string) :
  trimmed cutset s t -> existsByte P s = false -> existsByte P t = false.
Proof.
  intros (l & r & -> & _). rewrite !existsByte_app. intros H.
  apply orb_false_iff in H as [_ H]. now apply orb_false_iff in H as [H _].
Qed.

Lemma firstRemoved_no_new_byte (P : ascii -> bool) (p s mid : string) :
  firstRemoved p s mid -> existsByte P s = false -> existsByte P mid = false.
Proof.
  intros [[_ ->]|(l & r & -> & _ & ->)]; [trivial|].
  rewrite !existsByte_app. intros H.
  apply orb_false_iff in H as [Hl H]. apply orb_false_iff in H as [_ Hr].
  now rewrite Hl, Hr.
Qed.

Lemma prefixRemoved_no_new_byte (P : ascii -> bool) (p s rest : string) :
  prefixRemoved p s rest -> existsByte P s = false -> existsByte P rest = false.
Proof.
  intros [->|[_ ->]]; [|trivial]. rewrite existsByte_app. intros H.
  now apply orb_false_iff in H as [_ H].
Qed.

(** The bytes that the normalization trims are ASCII and not upper-case. *)
Lemma blank_bytes (l : string) :
  allBytes (fun c => inCutset c (" " ++ LF ++ CR)) l = true ->
  allBytes isASCIIByte l = true /\ mapBytes lowerByte l = l.
Proof.
  induction l as [|c l IH]; simpl; [now split|].
  intros H. apply andb_true_iff in H as [Hc Hl].
  destruct (IH Hl) as [Ha Hm]. rewrite Ha, Hm.
  assert (c = " "%char \/ c = ascii_of_nat 10 \/ c = ascii_of_nat 13) as Hcase.
  { repeat (apply orb_true_iff in Hc as [Hc|Hc];
            [apply Ascii.eqb_eq in Hc; auto|]).
    discriminate. }
  destruct Hcase as [->|[->| ->]]; now split.
Qed.

(** Lower-casing an ASCII text leaves blank bytes around it alone. *)
Lemma ToLower_padding (unicodeLower : string -> string) (l t r : string) :
  allBytes (fun c => inCutset c (" " ++ LF ++ CR)) l = true ->
  allBytes (fun c => inCutset c (" " ++ LF ++ CR)) r = true ->
  allBytes isASCIIByte t = true ->
  ToLower unicodeLower (l ++ t ++ r) = l ++ ToLower unicodeLower t ++ r.
Proof.
  intros Hl Hr Ht.
  destruct (blank_bytes l Hl) as [Al Ml], (blank_bytes r Hr) as [Ar Mr].
  rewrite (ToLower_ascii unicodeLower (l ++ t ++ r))
    by now rewrite !allBytes_app, Al, Ht, Ar.
  rewrite (ToLower_ascii unicodeLower t Ht), !mapBytes_app.
  now rewrite Ml, Mr.
Qed.

End strings_more.

(** ** The whole bot *)

Module slack_run_facts.
Import strings slack slack_run props props_run strings_facts strings_more.

Section Outputs.
Context {ApprovalResponse : Type}.
Implicit Types w : World ApprovalResponse.

Lemma sameOutputs_refl w : sameOutputs w w.
Proof. now repeat split. Qed.

Lemma sameOutputs_trans w1 w2 w3 :
  sameOutputs w1 w2 -> sameOutputs w2 w3 -> sameOutputs w1 w3.
Proof.
  intros (A1 & B1 & C1 & D1) (A2 & B2 & C2 & D2).
  repeat split; congruence.
Qed.

Lemma grown_same w w' : sameOutputs w' w -> grown 0 w w'.
Proof.
  intros (A & B & C & D). exists [], [], [], []. now repeat split.
Qed.

Lemma grown_trans (n m : nat) w w1 w2 :
  grown n w w1 -> grown m w1 w2 -> grown (n + m) w w2.
Proof.
  intros (a1 & m1 & r1 & u1 & A1 & B1 & C1 & D1 & N1)
         (a2 & m2 & r2 & u2 & A2 & B2 & C2 & D2 & N2).
  exists (a2 ++ a1)%list, (m2 ++ m1)%list, (r2 ++ r1)%list, (u2 ++ u1)%list.
  rewrite A2, B2, C2, D2, A1, B1, C1, D1, !List.app_assoc, !List.length_app.
  repeat split. lia.
Qed.

Lemma log_sameOutputs (l : Level) (msg : string) w :
  sameOutputs (snd (log ApprovalResponse l msg w)) w.
Proof. now repeat split. Qed.

(** The answer of the channel check does not depend on the world. *)
Lemma isApprovalsChannel_answer (b : Bot) (event : MessageEvent.t) w w0 :
  fst (isApprovalsChannel b event w) = fst (isApprovalsChannel b event w0).
Proof.
  unfold isApprovalsChannel.
  destruct (Client.GetChannelInfo _ _) as [channel|e].
  - unfold bind; simpl. now destruct (String.eqb _ _).
  - destruct (RTM.GetConversationInfo _ _ _) as [conv|e'].
    + now destruct (String.eqb _ _).
    + reflexivity.
Qed.

Lemma isApprovalsChannel_sameOutputs (b : Bot) (event : MessageEvent.t) w :
  sameOutputs (snd (isApprovalsChannel b event w)) w.
Proof.
  destruct (slack_facts.isApprovalsChannel_quiet b event w) as [[A B] [C D]].
  now repeat split.
Qed.

(** What [Respond] sends, by the length of the text. *)
Lemma Respond_outputs (b : Bot) (text channel : string) w :
  approvalsRespCh (snd (Respond b text channel w)) = approvalsRespCh w
  /\ botMessagesChannel (snd (Respond b text channel w)) = botMessagesChannel w
  /\ rtmSent (snd (Respond b text channel w))
     = ((if Nat.ltb (len text) 3000
         then [ {| OutgoingMessage.Channel := channel;
                   OutgoingMessage.Text := "```" ++ text ++ "```" |} ]
         else []) ++ rtmSent w)%list
  /\ uploaded (snd (Respond b text channel w))
     = ((if Nat.ltb (len text) 3000 then []
         else [ {| FileUploadParameters.Filename := "keel response";
                   FileUploadParameters.Content := text;
                   FileUploadParameters.Filetype := "text";
                   FileUploadParameters.Channels := [channel] |} ])
          ++ uploaded w)%list.
Proof.
  unfold Respond, formatAsSnippet. destruct (Nat.ltb _ _).
  - now repeat split.
  - unfold bind, UploadFile. now destruct (Client.UploadFile _ _).
Qed.

End Outputs.

Section Router.
Variable unicodeLower : string -> string.
Context {ApprovalResponse : Type}.
Variable IsApproval : string -> string -> ApprovalResponse * bool.
Implicit Types (b : Bot) (event : MessageEvent.t) (w : World ApprovalResponse).

Local Abbreviation handleMessage := (slack.handleMessage unicodeLower IsApproval).
Local Abbreviation eventLoop := (slack_run.eventLoop unicodeLower IsApproval).
Local Abbreviation normalized := (props.normalized unicodeLower).
Local Abbreviation trimBot := (slack.trimBot unicodeLower).
Local Abbreviation dispatched := (props_run.dispatched unicodeLower).
Local Abbreviation command := (props_run.command unicodeLower).

(** [handleMessage], branch by branch. *)
Lemma handleMessage_branches b event w :
  handleMessage b event w
  = if noise event then
      log ApprovalResponse DebugLevel "handleMessage: ignoring message" w
    else if negb (isBotMessage b event (normalized event)) then (tt, w)
    else
      let (approval, ok) :=
        IsApproval (MessageEvent.User event) (trimBot b (normalized event)) in
      if ok then
        let (inApprovals, w1) := isApprovalsChannel b event w in
        if inApprovals then sendApproval ApprovalResponse approval w1
        else Respond b (notice b) (MessageEvent.Channel event)
               (snd (log ApprovalResponse WarnLevel
                       ("message was received not in approvals channel: "
                          ++ MessageEvent.Channel event) w1))
      else sendBotMessage ApprovalResponse (command b event) w.
Proof.
  unfold slack.handleMessage, noise, props.normalized, props_run.command, notice.
  destruct (_ || _ || _); [reflexivity|].
  destruct (negb _); [reflexivity|].
  destruct (IsApproval _ _) as [approval [|]]; [|reflexivity].
  unfold bind. now destruct (isApprovalsChannel b event w) as [[|] w1].
Qed.

(** What one event makes the bot send, whatever was sent before. *)
Lemma handleMessage_emits b event :
  exists (a : list ApprovalResponse) (m : list BotMessage.t)
         (r : list OutgoingMessage.t) (u : list FileUploadParameters.t),
    (List.length a + List.length m + List.length r + List.length u
     = if dispatched b event then 1 else 0)%nat
    /\ Forall (eq (command b event)) m
    /\ Forall (eq (noticeMessage b (MessageEvent.Channel event))) r
    /\ Forall (eq (noticeUpload b (MessageEvent.Channel event))) u
    /\ forall w,
         approvalsRespCh (snd (handleMessage b event w))
           = (a ++ approvalsRespCh w)%list
         /\ botMessagesChannel (snd (handleMessage b event w))
            = (m ++ botMessagesChannel w)%list
         /\ rtmSent (snd (handleMessage b event w)) = (r ++ rtmSent w)%list
         /\ uploaded (snd (handleMessage b event w)) = (u ++ uploaded w)%list.
Proof.
  unfold props_run.dispatched.
  destruct (noise event) eqn:N.
  { exists [], [], [], []. repeat split; auto;
      rewrite handleMessage_branches, N; reflexivity. }
  destruct (isBotMessage b event (normalized event)) eqn:A.
  2:{ exists [], [], [], []. repeat split; auto;
        rewrite handleMessage_branches, N, A; reflexivity. }
  destruct (IsApproval (MessageEvent.User event) (trimBot b (normalized event)))
    as [approval ok] eqn:V.
  destruct ok.
  2:{ exists [], [command b event], [], []. repeat split; auto;
        rewrite handleMessage_branches, N, A, V; reflexivity. }
  assert (forall w, sameOutputs (snd (isApprovalsChannel b event w)) w) as Q
    by (intros w; apply isApprovalsChannel_sameOutputs).
  pose (w0 := @Build_World ApprovalResponse [] [] [] [] [] []).
  destruct (fst (isApprovalsChannel b event w0)) eqn:Ans.
  - exists [approval], [], [], [].
    split; [reflexivity|]. do 3 (split; [constructor|]).
    intros w. rewrite handleMessage_branches, N, A, V; cbn [negb].
    pose proof (isApprovalsChannel_answer b event w w0) as Hans.
    rewrite Ans in Hans. destruct (Q w) as (Qa & Qb & Qr & Qu).
    destruct (isApprovalsChannel b event w) as [ans w1].
    cbn [fst snd] in *; subst ans.
    unfold sendApproval;
      cbn [snd approvalsRespCh botMessagesChannel rtmSent uploaded].
    rewrite Qa, Qb, Qr, Qu. now repeat split.
  - exists [],
      [],
      (if Nat.ltb (len (notice b)) 3000
       then [noticeMessage b (MessageEvent.Channel event)] else []),
      (if Nat.ltb (len (notice b)) 3000 then []
       else [noticeUpload b (MessageEvent.Channel event)]).
    split; [now destruct (Nat.ltb _ _)|].
    split; [constructor|].
    split; [destruct (Nat.ltb _ _); auto|].
    split; [destruct (Nat.ltb _ _); auto|].
    intros w. rewrite handleMessage_branches, N, A, V; cbn [negb].
    pose proof (isApprovalsChannel_answer b event w w0) as Hans.
    rewrite Ans in Hans. destruct (Q w) as (Qa & Qb & Qr & Qu).
    destruct (isApprovalsChannel b event w) as [ans w1].
    cbn [fst snd] in *; subst ans.
    set (w2 := snd (log ApprovalResponse WarnLevel _ w1)).
    destruct (Respond_outputs b (notice b) (MessageEvent.Channel event) w2)
      as (Ra & Rb & Rr & Ru).
    change (approvalsRespCh w2) with (approvalsRespCh w1) in Ra.
    change (botMessagesChannel w2) with (botMessagesChannel w1) in Rb.
    change (rtmSent w2) with (rtmSent w1) in Rr.
    change (uploaded w2) with (uploaded w1) in Ru.
    unfold noticeMessage, noticeUpload.
    rewrite Ra, Rb, Rr, Ru, Qa, Qb, Qr, Qu. now repeat split.
Qed.

(** X1.  One event makes the bot send exactly one item (a vote, a bot
    message or a reply) if it passes both guards, and nothing otherwise;
    what was sent before stays. *)
Theorem handleMessage_one_output b event w :
  grown (if dispatched b event then 1 else 0) w (snd (handleMessage b event w)).
Proof.
  destruct (handleMessage_emits b event) as (a & m & r & u & Hn & _ & _ & _ & H).
  destruct (H w) as (Ha & Hm & Hr & Hu).
  exists a, m, r, u. now repeat split.
Qed.

(** X2.  The bot keeps nothing from one event to the next: what it sends
    for an event in any world is what it sends for it in the world where
    nothing has happened, put in front of what was sent already. *)
Theorem handleMessage_stateless b event w :
  let fresh := snd (handleMessage b event nothingSent) in
  let w' := snd (handleMessage b event w) in
  approvalsRespCh w' = (approvalsRespCh fresh ++ approvalsRespCh w)%list
  /\ botMessagesChannel w' = (botMessagesChannel fresh ++ botMessagesChannel w)%list
  /\ rtmSent w' = (rtmSent fresh ++ rtmSent w)%list
  /\ uploaded w' = (uploaded fresh ++ uploaded w)%list.
Proof.
  destruct (handleMessage_emits b event) as (a & m & r & u & _ & _ & _ & _ & H).
  destruct (H w) as (Ha & Hm & Hr & Hu).
  destruct (H nothingSent) as (Ha0 & Hm0 & Hr0 & Hu0).
  cbn [nothingSent approvalsRespCh botMessagesChannel rtmSent uploaded] in *.
  rewrite List.app_nil_r in Ha0, Hm0, Hr0, Hu0.
  cbv zeta. rewrite Ha0, Hm0, Hr0, Hu0. now repeat split.
Qed.

Lemma eventLoop_message b (ev : MessageEvent.t) (turns : list Turn) w :
  eventLoop b (Incoming (MessageEventOf ev) :: turns) w
  = eventLoop b turns (snd (handleMessage b ev w)).
Proof.
  cbn [slack_run.eventLoop]. unfold bind.
  now destruct (slack.handleMessage _ _ _ _ _).
Qed.

Lemma eventLoop_error b (err : string) (turns : list Turn) w :
  eventLoop b (Incoming (RTMError err) :: turns) w
  = eventLoop b turns (snd (log ApprovalResponse ErrorLevel ("Error: %s" ++ err) w)).
Proof. reflexivity. Qed.

(** Whatever the log and [handleMessage] keep true, the loop keeps true. *)
Lemma eventLoop_invariant b (P : World ApprovalResponse -> Prop) :
  (forall l msg w, P w -> P (snd (log ApprovalResponse l msg w))) ->
  (forall ev w, P w -> P (snd (handleMessage b ev w))) ->
  forall turns w, P w -> P (snd (eventLoop b turns w)).
Proof.
  intros Hlog Hhandle turns.
  induction turns as [|t turns IH]; intros w Hw; [exact Hw|].
  destruct t as [|[| |ev| |err| |]]; try (apply IH; exact Hw); try exact Hw.
  - rewrite eventLoop_message. apply IH, Hhandle, Hw.
  - rewrite eventLoop_error. apply IH, Hlog, Hw.
  - apply (Hlog ErrorLevel "Invalid credentials" w Hw).
Qed.

Lemma trimBot_tidy b (msg : string) :
  outside (" :" ++ LF) (firstByte (trimBot b msg))
  /\ outside (" :" ++ LF) (lastByte (trimBot b msg)).
Proof.
  unfold slack.trimBot.
  match goal with
  | |- context [Trim ?s ?c] =>
      destruct (Trim_trimmed s c) as (l & r & _ & _ & _ & Hf & Hl)
  end.
  now split.
Qed.

Lemma trimBot_no_new_byte (P : ascii -> bool) b (msg : string) :
  existsByte P msg = false -> existsByte P (trimBot b msg) = false.
Proof.
  intros H. unfold slack.trimBot. apply Trim_no_new_byte.
  eapply prefixRemoved_no_new_byte; [apply TrimPrefix_removed|].
  eapply firstRemoved_no_new_byte; [apply Replace_once | exact H].
Qed.

(** X3.  Every bot message the loop forwards is tagged "slack" and its
    text neither starts nor ends with a space, a colon or a line feed. *)
Theorem eventLoop_forwards_tidy b (turns : list Turn) w :
  Forall tidy (botMessagesChannel w) ->
  Forall tidy (botMessagesChannel (snd (eventLoop b turns w))).
Proof.
  revert turns w.
  apply (eventLoop_invariant b (fun w => Forall tidy (botMessagesChannel w))).
  - intros l msg w H. exact H.
  - intros ev w H.
    destruct (handleMessage_emits b ev) as (a & m & r & u & _ & Hm & _ & _ & E).
    destruct (E w) as (_ & -> & _). apply Forall_app. split; [|exact H].
    eapply Forall_impl; [|exact Hm]. intros x <-.
    split; [reflexivity | apply trimBot_tidy].
Qed.

(** X4.  When the unicode path of the lower-casing yields no upper-case
    byte, no bot message the loop forwards holds one: commands reach their
    consumer in lower case. *)
Theorem eventLoop_forwards_lower_case b (turns : list Turn) w :
  (forall s, existsByte isUpperByte (unicodeLower s) = false) ->
  Forall lowerCased (botMessagesChannel w) ->
  Forall lowerCased (botMessagesChannel (snd (eventLoop b turns w))).
Proof.
  intros Huni. revert turns w.
  apply (eventLoop_invariant b (fun w => Forall lowerCased (botMessagesChannel w))).
  - intros l msg w H. exact H.
  - intros ev w H.
    destruct (handleMessage_emits b ev) as (a & m & r & u & _ & Hm & _ & _ & E).
    destruct (E w) as (_ & -> & _). apply Forall_app. split; [|exact H].
    eapply Forall_impl; [|exact Hm]. intros x <-.
    unfold lowerCased, props_run.command; cbn [BotMessage.Message].
    apply trimBot_no_new_byte, Trim_no_new_byte.
    now apply ToLower_no_upper.
Qed.

(** X5.  The loop never replies with anything but the notice that sends a
    voter to the approvals channel, as an RTM message or as an upload. *)
Theorem eventLoop_replies_notice b (turns : list Turn) w :
  repliesAreNotices b w ->
  repliesAreNotices b (snd (eventLoop b turns w)).
Proof.
  revert turns w. apply (eventLoop_invariant b (repliesAreNotices b)).
  - intros l msg w H. exact H.
  - intros ev w [Hr Hu].
    destruct (handleMessage_emits b ev) as (a & m & r & u & _ & _ & Er & Eu & E).
    destruct (E w) as (_ & _ & Rr & Ru). unfold repliesAreNotices.
    rewrite Rr, Ru. split; apply Forall_app; (split; [|assumption]).
    + eapply Forall_impl; [|exact Er]. now intros x <-.
    + eapply Forall_impl; [|exact Eu]. now intros x <-.
Qed.

(** X6.  The loop sends exactly one item for each message event that
    passes both guards and comes in before it returns, and nothing else;
    what was sent before stays. *)
Theorem eventLoop_outputs b (turns : list Turn) w :
  grown (List.length (filter (dispatched b) (handled turns))) w
        (snd (eventLoop b turns w)).
Proof.
  revert w; induction turns as [|t turns IH]; intros w.
  - apply grown_same, sameOutputs_refl.
  - destruct t as [|[| |ev| |err| |]];
      try (apply grown_same, sameOutputs_refl); try (apply IH).
    + rewrite eventLoop_message. cbn [handled filter].
      assert (grown (if dispatched b ev then 1 else 0) w
                    (snd (handleMessage b ev w))) as H1.
      { destruct (handleMessage_emits b ev) as (a & m & r & u & Hn & _ & _ & _ & E).
        destruct (E w) as (Ha & Hm & Hr & Hu).
        exists a, m, r, u. now repeat split. }
      pose proof (grown_trans _ _ _ _ _ H1 (IH (snd (handleMessage b ev w)))) as H.
      destruct (dispatched b ev); exact H.
    + rewrite eventLoop_error. cbn [handled].
      eapply (grown_trans 0); [apply grown_same, log_sameOutputs | apply IH].
    + apply grown_same. apply (log_sameOutputs ErrorLevel "Invalid credentials" w).
Qed.

(** X7.  The loop over two stretches of turns is the loop over the first
    and, if it is still waiting then, the loop over the second from where
    the first left the world. *)
Theorem eventLoop_app b (turns1 turns2 : list Turn) w :
  eventLoop b (turns1 ++ turns2)%list w
  = match eventLoop b turns1 w with
    | (Waiting, w1) => eventLoop b turns2 w1
    | (Returned err, w1) => (Returned err, w1)
    end.
Proof.
  revert w; induction turns1 as [|t turns1 IH]; intros w; [reflexivity|].
  destruct t as [|[| |ev| |err| |]]; try reflexivity;
    rewrite <- List.app_comm_cons;
    try rewrite !eventLoop_message; try rewrite !eventLoop_error; apply IH.
Qed.

(** X8.  How the loop ends is decided by the first turn on which it
    returns: it is waiting if there is none, it returns nil if the context
    is done, and the error "invalid credentials" otherwise. *)
Theorem eventLoop_outcome b (turns : list Turn) w :
  fst (eventLoop b turns w)
  = match find stops turns with
    | None => Waiting
    | Some CtxDone => Returned None
    | Some (Incoming _) => Returned (Some "invalid credentials")
    end.
Proof.
  revert w; induction turns as [|t turns IH]; intros w; [reflexivity|].
  destruct t as [|[| |ev| |err| |]]; try reflexivity;
    try rewrite eventLoop_message; try rewrite eventLoop_error; apply IH.
Qed.

(** X9.  Turns after the one on which the loop returns are never looked
    at. *)
Theorem eventLoop_after_stop b (pre post : list Turn) (t : Turn) w :
  stops t = true ->
  eventLoop b (pre ++ t :: post)%list w = eventLoop b (pre ++ [t])%list w.
Proof.
  intros Ht. revert w; induction pre as [|t' pre IH]; intros w.
  - destruct t as [|[| |ev| |err| |]]; try discriminate; reflexivity.
  - destruct t' as [|[| |ev| |err| |]]; try reflexivity;
      rewrite <- !List.app_comm_cons;
      try rewrite !eventLoop_message; try rewrite !eventLoop_error; apply IH.
Qed.

(** X10.  [trimBot] only takes bytes away: its result is never longer
    than the text it is given. *)
Theorem trimBot_never_longer b (msg : string) : len (trimBot b msg) <= len msg.
Proof.
  unfold slack.trimBot.
  match goal with
  | |- len (Trim (TrimPrefix (Replace msg ?p "" 1) ?n) ?c) <= _ =>
      pose proof (trimmed_len _ _ _ (Trim_trimmed (TrimPrefix (Replace msg p "" 1) n) c));
      pose proof (prefixRemoved_len _ _ _ (TrimPrefix_removed (Replace msg p "" 1) n));
      pose proof (firstRemoved_len _ _ _ (Replace_once msg p))
  end.
  lia.
Qed.

Lemma Trim_command (sep cmd : string) :
  allBytes (fun c => inCutset c (" :" ++ LF)) sep = true ->
  outside (" :" ++ LF) (firstByte cmd) ->
  outside (" :" ++ LF) (lastByte cmd) ->
  Trim (sep ++ cmd) (" :" ++ LF) = cmd.
Proof.
  intros Hsep Hf Hl. apply Trim_of_trimmed. exists sep, "".
  rewrite app_empty_r. now repeat split.
Qed.

(** X11.  Addressing and stripping undo each other: from the mention
    prefix, then separators, then a command that neither starts nor ends
    with a separator, [trimBot] gives back the command, provided what
    follows the mention does not start with the bot's name. *)
Theorem trimBot_after_mention b (sep cmd : string) :
  allBytes (fun c => inCutset c (" :" ++ LF)) sep = true ->
  outside (" :" ++ LF) (firstByte cmd) ->
  outside (" :" ++ LF) (lastByte cmd) ->
  HasPrefix (sep ++ cmd) (name b) = false ->
  trimBot b (mention unicodeLower b ++ sep ++ cmd) = cmd.
Proof.
  intros Hsep Hf Hl Hname. unfold slack.trimBot.
  fold (mention unicodeLower b). set (p := mention unicodeLower b).
  assert (Replace (p ++ sep ++ cmd) p "" 1 = sep ++ cmd) as ->.
  { apply (firstRemoved_unique p (p ++ sep ++ cmd)); [apply Replace_once|].
    right. exists "", (sep ++ cmd). repeat split. simpl. lia. }
  unfold TrimPrefix. rewrite Hname. now apply Trim_command.
Qed.

(** X12.  The same for the plain name: from the bot's name, then
    separators, then such a command, [trimBot] gives back the command,
    provided the mention prefix occurs nowhere in the text. *)
Theorem trimBot_after_name b (sep cmd : string) :
  ~ Contains (name b ++ sep ++ cmd) (mention unicodeLower b) ->
  allBytes (fun c => inCutset c (" :" ++ LF)) sep = true ->
  outside (" :" ++ LF) (firstByte cmd) ->
  outside (" :" ++ LF) (lastByte cmd) ->
  trimBot b (name b ++ sep ++ cmd) = cmd.
Proof.
  intros Hno Hsep Hf Hl. unfold slack.trimBot.
  fold (mention unicodeLower b). set (p := mention unicodeLower b) in *.
  assert (Replace (name b ++ sep ++ cmd) p "" 1 = name b ++ sep ++ cmd) as ->.
  { apply (firstRemoved_unique p (name b ++ sep ++ cmd)); [apply Replace_once|].
    now left. }
  rewrite TrimPrefix_app. now apply Trim_command.
Qed.

(** [handleMessage] reads the text of an event through its normalization
    only. *)
Lemma handleMessage_text b event (t1 t2 : string) w :
  normalized (withText event t1) = normalized (withText event t2) ->
  handleMessage b (withText event t1) w = handleMessage b (withText event t2) w.
Proof.
  unfold props.normalized, slack.handleMessage, isBotMessage, isApprovalsChannel,
    withText.
  cbn [MessageEvent.Text MessageEvent.User MessageEvent.Channel
       MessageEvent.BotID MessageEvent.SubType].
  now intros ->.
Qed.

(** X13.  The bot does not tell upper case from lower case: two events
    that differ only in the case of the letters of their ASCII texts make
    it send the same. *)
Theorem handleMessage_case_insensitive b event (t1 t2 : string) w :
  allBytes isASCIIByte t1 = true ->
  allBytes isASCIIByte t2 = true ->
  sameLetters t1 t2 ->
  sameOutputs (snd (handleMessage b (withText event t1) w))
              (snd (handleMessage b (withText event t2) w)).
Proof.
  intros H1 H2 Hsame.
  rewrite (handleMessage_text b event t1 t2); [apply sameOutputs_refl|].
  unfold props.normalized, withText; cbn [MessageEvent.Text].
  rewrite (ToLower_ascii unicodeLower t1 H1), (ToLower_ascii unicodeLower t2 H2).
  now rewrite Hsame.
Qed.

(** X14.  Spaces, line feeds and carriage returns around an ASCII text do
    not count: the event with them and the event without them make the bot
    send the same. *)
Theorem handleMessage_blank_insensitive b event (l t r : string) w :
  allBytes (fun c => inCutset c (" " ++ LF ++ CR)) l = true ->
  allBytes (fun c => inCutset c (" " ++ LF ++ CR)) r = true ->
  allBytes isASCIIByte t = true ->
  sameOutputs (snd (handleMessage b (withText event (l ++ t ++ r)) w))
              (snd (handleMessage b (withText event t) w)).
Proof.
  intros Hl Hr Ht.
  rewrite (handleMessage_text b event (l ++ t ++ r) t); [apply sameOutputs_refl|].
  unfold props.normalized, withText; cbn [MessageEvent.Text].
  rewrite (ToLower_padding unicodeLower l t r Hl Hr Ht).
  now apply Trim_padding.
Qed.

(** The loop of [Start] changes nothing of the bot but its identifier. *)
Lemma scanUsers_set_id (users : list User.t) b :
  exists v, scanUsers b users = set_id b v.
Proof.
  unfold scanUsers. revert b; induction users as [|u users IH]; intros b.
  - exists (id b). now destruct b.
  - cbn [fold_left]. destruct (String.eqb _ _); [|apply IH].
    destruct (User.IsBot u); [|apply IH].
    destruct (IH (set_id b (User.ID u))) as [v Hv]. exists v. exact Hv.
Qed.

(** The identifier it leaves is the one of the last user named as the bot
    and flagged as a bot, or the one the bot had. *)
Lemma scanUsers_lastBot (users : list User.t) b :
  id (scanUsers b users)
  = match lastBot b users with
    | Some u => User.ID u
    | None => id b
    end.
Proof.
  unfold lastBot. induction users as [|u users IH] using rev_ind; [reflexivity|].
  rewrite slack_facts.scanUsers_app, rev_app_distr. cbn [rev List.app find].
  unfold scanUsers at 1. cbn [fold_left]. fold (scanUsers b users).
  rewrite slack_facts.name_scanUsers.
  destruct (String.eqb (User.Name u) (name b)); [|exact IH].
  destruct (User.IsBot u); [reflexivity | exact IH].
Qed.

(** [Start] once the directory has been read. *)
Lemma Start_scanned b (users : list User.t) w :
  Client.GetUsers (slackClient b) = Ok users ->
  Start unicodeLower b w
  = let b1 := scanUsers (set_users b []) users in
    if String.eqb (id b1) "" then
      (b1, Some ("could not find bot in the list of names, check if the bot is called "
                   ++ DQUOTE ++ name b1 ++ DQUOTE ++ " "), w)
    else
      (set_msgPrefix b1 (ToLower unicodeLower ("<@" ++ id b1 ++ ">")), None,
       snd (go ApprovalResponse startInternal w)).
Proof.
  intros Husers. unfold Start. rewrite Husers. cbv zeta.
  now destruct (String.eqb _ _).
Qed.

(** X15.  [Start] returns nil exactly when it has launched the event loop,
    and then the bot has an identifier and the mention prefix made from
    it; when it returns an error nothing is launched and the mention
    prefix is as it was.  Either way the bot keeps its name and its
    approvals channel, and nothing is sent. *)
Theorem Start_outcome b w :
  let b' := fst (fst (Start unicodeLower b w)) in
  let err := snd (fst (Start unicodeLower b w)) in
  let w' := snd (Start unicodeLower b w) in
  name b' = name b
  /\ approvalsChannel b' = approvalsChannel b
  /\ sameOutputs w' w
  /\ ((err = None
       /\ id b' <> ""
       /\ msgPrefix b' = ToLower unicodeLower ("<@" ++ id b' ++ ">")
       /\ goroutines w' = startInternal :: goroutines w)
      \/ (err <> None
          /\ msgPrefix b' = msgPrefix b
          /\ goroutines w' = goroutines w)).
Proof.
  unfold Start. destruct (Client.GetUsers (slackClient b)) as [users|e].
  - destruct (scanUsers_set_id users (set_users b [])) as [v ->].
    cbn [id set_id]. destruct (String.eqb_spec v "") as [->|Hv].
    + repeat split. right. now repeat split.
    + unfold bind. repeat split. left. now repeat split.
  - repeat split. right. now repeat split.
Qed.

(** X16.  When the directory can be read, [Start] leaves the bot the
    identifier of the last user named as the bot and flagged as a bot, or
    the identifier it had when there is none, and it returns nil exactly
    when that identifier is not empty. *)
Theorem Start_identity b (users : list User.t) w :
  Client.GetUsers (slackClient b) = Ok users ->
  let b' := fst (fst (Start unicodeLower b w)) in
  let err := snd (fst (Start unicodeLower b w)) in
  id b' = match lastBot b users with
          | Some u => User.ID u
          | None => id b
          end
  /\ (err = None <-> id b' <> "").
Proof.
  intros Husers. unfold Start. rewrite Husers.
  pose proof (scanUsers_lastBot users (set_users b [])) as Hlast.
  change (lastBot (set_users b []) users) with (lastBot b users) in Hlast.
  change (id (set_users b [])) with (id b) in Hlast.
  destruct (String.eqb_spec (id (scanUsers (set_users b []) users)) "") as [E|E].
  - cbn [fst snd ret]. split; [exact Hlast|]. split; [discriminate | congruence].
  - unfold bind. cbn [fst snd go ret set_msgPrefix id].
    split; [exact Hlast|]. now split.
Qed.

End Router.

Section Configure.
Variables EnvSlackToken EnvSlackBotName EnvSlackApprovalsChannel : string.
Variable New : string -> Client.t.

Local Abbreviation Configure :=
  (slack_run.Configure EnvSlackToken EnvSlackBotName EnvSlackApprovalsChannel).

(** X17.  [Configure] returns true exactly when the token is set.  It
    then gives the bot a name that is not empty and the client made from
    the token; otherwise it leaves the bot as it was.  It never touches
    the identifier or the mention prefix. *)
Theorem Configure_outcome (Getenv : string -> string) (b : Bot) :
  let b' := fst (fst (Configure Getenv New b)) in
  let ok := snd (fst (Configure Getenv New b)) in
  (ok = true <-> Getenv EnvSlackToken <> "")
  /\ id b' = id b
  /\ msgPrefix b' = msgPrefix b
  /\ (if ok then name b' <> "" /\ slackClient b' = New (Getenv EnvSlackToken)
      else b' = b).
Proof.
  unfold slack_run.Configure.
  destruct (String.eqb_spec (Getenv EnvSlackToken) "") as [E|E]; cbn [negb fst snd].
  - repeat split; try discriminate. intros H. now apply H in E.
  - split; [now split|].
    destruct (String.eqb_spec (Getenv EnvSlackApprovalsChannel) "");
      destruct (String.eqb_spec (Getenv EnvSlackBotName) "") as [N|N];
      cbn [negb]; repeat split; try discriminate; exact N.
Qed.

(** X18.  The approvals channel may be written with or without its
    leading '#': both environments configure the same bot. *)
Theorem Configure_marker (Getenv1 Getenv2 : string -> string) (c : string) (b : Bot) :
  Getenv1 EnvSlackToken = Getenv2 EnvSlackToken ->
  Getenv1 EnvSlackBotName = Getenv2 EnvSlackBotName ->
  Getenv1 EnvSlackApprovalsChannel = "#" ++ c ->
  Getenv2 EnvSlackApprovalsChannel = c ->
  c <> "" ->
  HasPrefix c "#" = false ->
  Configure Getenv1 New b = Configure Getenv2 New b.
Proof.
  intros Ht Hn H1 H2 Hc Hmark. unfold slack_run.Configure.
  rewrite Ht, Hn, H1, H2.
  rewrite (TrimPrefix_app "#" c).
  unfold TrimPrefix at 1. rewrite Hmark.
  apply String.eqb_neq in Hc. rewrite Hc.
  reflexivity.
Qed.

(** X19.  [Configure] and then [Start], on a bot without identifier: the
    directory of the client made from the token is searched for the
    configured name; [Start] fails and launches nothing when no bot account
    carries it, and otherwise takes the identifier of the last one and
    succeeds exactly when that identifier is not empty. *)
Theorem Configure_then_Start {ApprovalResponse : Type}
    (unicodeLower : string -> string) (Getenv : string -> string)
    (b : Bot) (users : list User.t) (w : World ApprovalResponse) :
  id b = "" ->
  Getenv EnvSlackToken <> "" ->
  Client.GetUsers (New (Getenv EnvSlackToken)) = Ok users ->
  let b1 := fst (fst (Configure Getenv New b)) in
  let b' := fst (fst (Start unicodeLower b1 w)) in
  let err := snd (fst (Start unicodeLower b1 w)) in
  let w' := snd (Start unicodeLower b1 w) in
  name b1 = (if String.eqb (Getenv EnvSlackBotName) "" then "keel"
             else Getenv EnvSlackBotName)
  /\ match lastBot b1 users with
     | None => err <> None /\ goroutines w' = goroutines w
     | Some u => id b' = User.ID u /\ (err = None <-> User.ID u <> "")
     end.
Proof.
  intros Hid Htoken Husers.
  assert (exists n c,
            fst (fst (Configure Getenv New b))
            = set_slackClient
                (set_approvalsChannel (set_name b n) c)
                (New (Getenv EnvSlackToken))
            /\ n = (if String.eqb (Getenv EnvSlackBotName) "" then "keel"
                    else Getenv EnvSlackBotName)) as (n & c & E & Hn).
  { unfold slack_run.Configure.
    apply String.eqb_neq in Htoken. rewrite Htoken. cbn [negb fst].
    destruct (String.eqb (Getenv EnvSlackApprovalsChannel) "");
      destruct (String.eqb (Getenv EnvSlackBotName) "");
      cbn [negb]; eexists; eexists; (split; [reflexivity|reflexivity]). }
  cbv zeta. rewrite E.
  set (b1 := set_slackClient (set_approvalsChannel (set_name b n) c)
               (New (Getenv EnvSlackToken))).
  split; [exact Hn|].
  rewrite (Start_scanned unicodeLower b1 users w Husers). cbv zeta.
  pose proof (scanUsers_lastBot users (set_users b1 [])) as Hlast.
  change (lastBot (set_users b1 []) users) with (lastBot b1 users) in Hlast.
  change (id (set_users b1 [])) with (id b) in Hlast. rewrite Hid in Hlast.
  destruct (lastBot b1 users) as [u|].
  - destruct (String.eqb_spec (id (scanUsers (set_users b1 []) users)) "")
      as [Ee|Ee]; cbn [fst snd set_msgPrefix id];
      (split; [exact Hlast|]); rewrite <- Hlast.
    + split; [discriminate | congruence].
    + now split.
  - rewrite Hlast. cbn [String.eqb fst snd]. split; [discriminate | reflexivity].
Qed.

End Configure.

End slack_run_facts.

(** ** The whole bot at work *)

Module scenarios_run.
Import strings slack slack_run props props_run strings_facts strings_more.
Import example example_run.

Example stream_outcome :
  fst (eventLoop lowerBytes IsApproval keel stream empty) = Returned None
  /\ approvalsRespCh (snd (eventLoop lowerBytes IsApproval keel stream empty))
     = [("U999", "approve payment-1")]
  /\ rtmSent (snd (eventLoop lowerBytes IsApproval keel stream empty)) = [].
Proof. now repeat split. Qed.

Example Configure_environment :
  let b := fst (fst (Configure "SLACK_TOKEN" "SLACK_BOT_NAME"
                       "SLACK_APPROVALS_CHANNEL" environment newClient zero)) in
  (name b, approvalsChannel b, id b) = ("keel", "releases", "").
Proof. reflexivity. Qed.

Lemma eventLoop_forwards_tidy_witness :
  Forall tidy (botMessagesChannel empty)
  /\ Forall tidy
       (botMessagesChannel (snd (eventLoop lowerBytes IsApproval keel stream empty))).
Proof.
  assert (Forall tidy (botMessagesChannel empty)) as H by constructor.
  exact (conj H
           (slack_run_facts.eventLoop_forwards_tidy lowerBytes IsApproval
              keel stream empty H)).
Defined.

Lemma eventLoop_forwards_lower_case_witness :
  (forall s, existsByte isUpperByte (lowerBytes s) = false)
  /\ Forall lowerCased (botMessagesChannel empty)
  /\ Forall lowerCased
       (botMessagesChannel
          (snd (eventLoop lowerBytes IsApproval keel
                  [Incoming (MessageEventOf shoutedStatus)] empty))).
Proof.
  assert (Forall lowerCased (botMessagesChannel empty)) as H by constructor.
  exact (conj mapBytes_lower_no_upper (conj H
           (slack_run_facts.eventLoop_forwards_lower_case lowerBytes IsApproval
              keel [Incoming (MessageEventOf shoutedStatus)] empty
              mapBytes_lower_no_upper H))).
Defined.

Lemma eventLoop_replies_notice_witness :
  repliesAreNotices keel empty
  /\ repliesAreNotices keel
       (snd (eventLoop lowerBytes IsApproval keel
               [Incoming (MessageEventOf voteInRandom)] empty)).
Proof.
  assert (repliesAreNotices keel empty) as H by (split; constructor).
  exact (conj H
           (slack_run_facts.eventLoop_replies_notice lowerBytes IsApproval
              keel [Incoming (MessageEventOf voteInRandom)] empty H)).
Defined.

Lemma eventLoop_after_stop_witness :
  stops CtxDone = true
  /\ eventLoop lowerBytes IsApproval keel stream empty
     = eventLoop lowerBytes IsApproval keel
         [ Incoming HelloEvent;
           Incoming (MessageEventOf voteInGeneral);
           Incoming (MessageEventOf chatter);
           Incoming (RTMError "socket closed");
           Incoming (MessageEventOf statusInDM);
           CtxDone ] empty.
Proof.
  assert (stops CtxDone = true) as H by reflexivity.
  exact (conj H
           (slack_run_facts.eventLoop_after_stop lowerBytes IsApproval keel
              [ Incoming HelloEvent;
                Incoming (MessageEventOf voteInGeneral);
                Incoming (MessageEventOf chatter);
                Incoming (RTMError "socket closed");
                Incoming (MessageEventOf statusInDM) ]
              [ Incoming (MessageEventOf voteInRandom) ]
              CtxDone empty H)).
Defined.

Lemma trimBot_after_mention_witness :
  allBytes (fun c => inCutset c (" :" ++ LF)) ": " = true
  /\ outside (" :" ++ LF) (firstByte "deploy now")
  /\ outside (" :" ++ LF) (lastByte "deploy now")
  /\ HasPrefix (": " ++ "deploy now") (name keel) = false
  /\ trimBot lowerBytes keel (mention lowerBytes keel ++ ": " ++ "deploy now")
     = "deploy now".
Proof.
  assert (allBytes (fun c => inCutset c (" :" ++ LF)) ": " = true)
    as H1 by reflexivity.
  assert (outside (" :" ++ LF) (firstByte "deploy now")) as H2 by reflexivity.
  assert (outside (" :" ++ LF) (lastByte "deploy now")) as H3 by reflexivity.
  assert (HasPrefix (": " ++ "deploy now") (name keel) = false)
    as H4 by reflexivity.
  exact (conj H1 (conj H2 (conj H3 (conj H4
           (slack_run_facts.trimBot_after_mention lowerBytes keel
              ": " "deploy now" H1 H2 H3 H4))))).
Defined.

Lemma trimBot_after_name_witness :
  ~ Contains (name keel ++ ": " ++ "status") (mention lowerBytes keel)
  /\ allBytes (fun c => inCutset c (" :" ++ LF)) ": " = true
  /\ outside (" :" ++ LF) (firstByte "status")
  /\ outside (" :" ++ LF) (lastByte "status")
  /\ trimBot lowerBytes keel (name keel ++ ": " ++ "status") = "status".
Proof.
  assert (~ Contains (name keel ++ ": " ++ "status") (mention lowerBytes keel))
    as H1.
  { intros [j (l & r & E & _)]. apply splitsAt_complete in E.
    vm_compute in E. exact E. }
  assert (allBytes (fun c => inCutset c (" :" ++ LF)) ": " = true)
    as H2 by reflexivity.
  assert (outside (" :" ++ LF) (firstByte "status")) as H3 by reflexivity.
  assert (outside (" :" ++ LF) (lastByte "status")) as H4 by reflexivity.
  exact (conj H1 (conj H2 (conj H3 (conj H4
           (slack_run_facts.trimBot_after_name lowerBytes keel
              ": " "status" H1 H2 H3 H4))))).
Defined.

Lemma handleMessage_case_insensitive_witness :
  allBytes isASCIIByte "KEEL Status" = true
  /\ allBytes isASCIIByte "keel status" = true
  /\ sameLetters "KEEL Status" "keel status"
  /\ sameOutputs
       (snd (handleMessage lowerBytes IsApproval keel
               (withText statusInDM "KEEL Status") empty))
       (snd (handleMessage lowerBytes IsApproval keel
               (withText statusInDM "keel status") empty)).
Proof.
  assert (allBytes isASCIIByte "KEEL Status" = true) as H1 by reflexivity.
  assert (allBytes isASCIIByte "keel status" = true) as H2 by reflexivity.
  assert (sameLetters "KEEL Status" "keel status") as H3 by reflexivity.
  exact (conj H1 (conj H2 (conj H3
           (slack_run_facts.handleMessage_case_insensitive lowerBytes IsApproval
              keel statusInDM "KEEL Status" "keel status" empty H1 H2 H3)))).
Defined.

Lemma handleMessage_blank_insensitive_witness :
  allBytes (fun c => inCutset c (" " ++ LF ++ CR)) "  " = true
  /\ allBytes (fun c => inCutset c (" " ++ LF ++ CR)) LF = true
  /\ allBytes isASCIIByte "keel status" = true
  /\ sameOutputs
       (snd (handleMessage lowerBytes IsApproval keel
               (withText statusInDM ("  " ++ "keel status" ++ LF)) empty))
       (snd (handleMessage lowerBytes IsApproval keel
               (withText statusInDM "keel status") empty)).
Proof.
  assert (allBytes (fun c => inCutset c (" " ++ LF ++ CR)) "  " = true)
    as H1 by reflexivity.
  assert (allBytes (fun c => inCutset c (" " ++ LF ++ CR)) LF = true)
    as H2 by reflexivity.
  assert (allBytes isASCIIByte "keel status" = true) as H3 by reflexivity.
  exact (conj H1 (conj H2 (conj H3
           (slack_run_facts.handleMessage_blank_insensitive lowerBytes IsApproval
              keel statusInDM "  " "keel status" LF empty H1 H2 H3)))).
Defined.

Lemma Start_identity_witness :
  Client.GetUsers (slackClient renamed) = Ok directory
  /\ id (fst (fst (Start lowerBytes renamed empty))) = "U123"
  /\ (snd (fst (Start lowerBytes renamed empty)) = None
      <-> id (fst (fst (Start lowerBytes renamed empty))) <> "").
Proof.
  assert (Client.GetUsers (slackClient renamed) = Ok directory)
    as H by reflexivity.
  exact (conj H
           (slack_run_facts.Start_identity lowerBytes renamed directory empty H)).
Defined.

Lemma Configure_marker_witness :
  environment "SLACK_TOKEN" = environmentPlain "SLACK_TOKEN"
  /\ environment "SLACK_BOT_NAME" = environmentPlain "SLACK_BOT_NAME"
  /\ environment "SLACK_APPROVALS_CHANNEL" = "#" ++ "releases"
  /\ environmentPlain "SLACK_APPROVALS_CHANNEL" = "releases"
  /\ "releases" <> ""
  /\ HasPrefix "releases" "#" = false
  /\ Configure "SLACK_TOKEN" "SLACK_BOT_NAME" "SLACK_APPROVALS_CHANNEL"
       environment newClient zero
     = Configure "SLACK_TOKEN" "SLACK_BOT_NAME" "SLACK_APPROVALS_CHANNEL"
         environmentPlain newClient zero.
Proof.
  assert ("releases" <> "") as H5 by discriminate.
  exact (conj eq_refl (conj eq_refl (conj eq_refl (conj eq_refl (conj H5
           (conj eq_refl
              (slack_run_facts.Configure_marker
                 "SLACK_TOKEN" "SLACK_BOT_NAME" "SLACK_APPROVALS_CHANNEL"
                 newClient environment environmentPlain "releases" zero
                 eq_refl eq_refl eq_refl eq_refl H5 eq_refl))))))).
Defined.

Lemma Configure_then_Start_witness :
  id zero = ""
  /\ environment "SLACK_TOKEN" <> ""
  /\ Client.GetUsers (newClient (environment "SLACK_TOKEN")) = Ok directory
  /\ name (fst (fst (Configure "SLACK_TOKEN" "SLACK_BOT_NAME"
                       "SLACK_APPROVALS_CHANNEL" environment newClient zero)))
     = "keel"
  /\ id (fst (fst (Start lowerBytes
                     (fst (fst (Configure "SLACK_TOKEN" "SLACK_BOT_NAME"
                                  "SLACK_APPROVALS_CHANNEL" environment
                                  newClient zero)))
                     empty)))
     = "U456"
  /\ (snd (fst (Start lowerBytes
                  (fst (fst (Configure "SLACK_TOKEN" "SLACK_BOT_NAME"
                               "SLACK_APPROVALS_CHANNEL" environment
                               newClient zero)))
                  empty))
      = None
      <-> "U456" <> "").
Proof.
  assert (id zero = "") as H1 by reflexivity.
  assert (environment "SLACK_TOKEN" <> "") as H2 by discriminate.
  assert (Client.GetUsers (newClient (environment "SLACK_TOKEN")) = Ok directory)
    as H3 by reflexivity.
  exact (conj H1 (conj H2 (conj H3
           (slack_run_facts.Configure_then_Start
              "SLACK_TOKEN" "SLACK_BOT_NAME" "SLACK_APPROVALS_CHANNEL" newClient
              lowerBytes environment zero directory empty H1 H2 H3)))).
Defined.

End scenarios_run.

(** ** The name rule and letters outside ASCII *)

Module scenarios_unicode.
Import strings slack props strings_facts example example_unicode.

(** What keeps the name rule from matching is a stretch of the name that
    no lower-cased text holds: a byte 'A'..'Z' is one, and so is a letter
    outside ASCII when the lower-casing never yields it. *)
Lemma unseen_stretch_never_matches (unicodeLower : string -> string)
    (b : Bot) (event : MessageEvent.t) (u : string) :
  (forall s, ~ Contains (ToLower unicodeLower s) u) ->
  Contains (name b) u ->
  HasPrefix (normalized unicodeLower event) (name b) = false.
Proof.
  intros Hnever [j (a & c & Hname & _)].
  destruct (HasPrefix _ _) eqn:E; [|reflexivity].
  exfalso. apply HasPrefix_split in E.
  destruct (Trim_trimmed (ToLower unicodeLower (MessageEvent.Text event))
              (" " ++ LF ++ CR)) as (l & r & Htext & _).
  fold (normalized unicodeLower event) in Htext.
  apply (Hnever (MessageEvent.Text event)).
  exists (len (l ++ a)), (l ++ a).
  exists (c ++ sliceFrom (len (name b)) (normalized unicodeLower event) ++ r).
  split; [|reflexivity].
  rewrite Htext, E, Hname at 1. now rewrite !app_assoc.
Qed.


End scenarios_unicode.
